(** * OpenManus web client (static/main.js): task event streaming

    A shallow embedding of the browser-side engine of [static/main.js]:
    the per-task EventSource session opened by [setupSSE], its frame
    listeners, the status polls, the reconnection logic of
    [eventSource.onerror], the ask_human modal and [createTask].

    The page is single threaded: every handler runs to completion, and
    what happens between two handlers (a frame is pushed, a fetch
    settles, a timer fires, the user clicks) is chosen by the
    environment.  The embedding is therefore a deterministic function
    [step : world -> event -> world], one case per callback of the
    source, over a record [world] holding the globals, the closures'
    variables and the parts of the DOM the handlers read back.

    Conventions.
    - JavaScript strings are [string]s holding their UTF-8 bytes.
    - [JSON.parse] is the platform's: a frame or a response body is
      represented by what [JSON.parse] yields for it, [None] when it
      raises a SyntaxError.  JSON numbers are the integral ones.
    - Text interpolated into [innerHTML] is taken to be free of markup,
      so that the text content of an element is the interpolated text. *)

From stdpp Require Import base list strings pretty.
From Stdlib Require Import Ascii ZArith Lia.

Open Scope string_scope.
Open Scope list_scope.
Set Warnings "-register-all".

(** ** JavaScript values *)

Module Js.

Inductive json :=
| JNull
| JBool (b : bool)
| JNum (z : Z)
| JStr (s : string)
| JArr (xs : list json)
| JObj (fields : list (string * json)).

(** What an expression of a handler evaluates to: a JSON value, or
    [undefined] for a property that is not there. *)
Inductive value :=
| Undefined
| Val (j : json).

(** The error a handler raises and a [catch] receives.  The text of
    the errors the platform raises (TypeError, SyntaxError, a failed
    fetch) is the browser's; [Error m] is [new Error(m)]. *)
Inductive error :=
| PlatformError
| Error (message : string).

Inductive outcome (A : Type) :=
| Ok (a : A)
| Throw (e : error).
Arguments Ok {A} a.
Arguments Throw {A} e.

Definition bind {A B} (m : outcome A) (k : A -> outcome B) : outcome B :=
  match m with
  | Ok a => k a
  | Throw e => Throw e
  end.

(** [JSON.parse] keeps the last of several fields of one name. *)
Fixpoint field (k : string) (fs : list (string * json)) : value :=
  match fs with
  | [] => Undefined
  | (k', v) :: fs' =>
      match field k fs' with
      | Undefined => if String.eqb k k' then Val v else Undefined
      | later => later
      end
  end.

(** [v.k], for the property names the client reads ([result], [message],
    [status], [error], [question], [request_id], [task_id], [detail]):
    none of them is on a built-in prototype, so only an object can have
    one, and reading it off [null] or [undefined] is a TypeError. *)
Definition get (v : value) (k : string) : outcome value :=
  match v with
  | Undefined | Val JNull => Throw PlatformError
  | Val (JObj fs) => Ok (field k fs)
  | Val _ => Ok Undefined
  end.

(** ToBoolean. *)
Definition truthy (v : value) : bool :=
  match v with
  | Undefined | Val JNull => false
  | Val (JBool b) => b
  | Val (JNum z) => negb (z =? 0)%Z
  | Val (JStr s) => negb (String.eqb s "")
  | Val (JArr _) | Val (JObj _) => true
  end.

(** [a || b] *)
Definition or (a b : value) : value := if truthy a then a else b.

(** [typeof v === 'object'] *)
Definition typeof_object (v : value) : bool :=
  match v with
  | Val JNull | Val (JArr _) | Val (JObj _) => true
  | _ => false
  end.

(** [v === s] for a string literal [s] *)
Definition is_string (v : value) (s : string) : bool :=
  match v with
  | Val (JStr t) => String.eqb t s
  | _ => false
  end.

(** ToString, as a template literal applies it.  An array is its
    elements joined by commas, [null] elements being empty. *)
Fixpoint json_to_string (j : json) : string :=
  match j with
  | JNull => "null"
  | JBool true => "true"
  | JBool false => "false"
  | JNum z => pretty z
  | JStr s => s
  | JArr xs =>
      (fix join (l : list json) : string :=
         match l with
         | [] => ""
         | x :: tl =>
             let here := match x with JNull => "" | _ => json_to_string x end in
             match tl with
             | [] => here
             | _ :: _ => here +:+ "," +:+ join tl
             end
         end) xs
  | JObj _ => "[object Object]"
  end.

Definition to_string (v : value) : string :=
  match v with
  | Undefined => "undefined"
  | Val j => json_to_string j
  end.

End Js.

Import Js.

#[global] Instance outcome_bind : MBind outcome := fun _ _ k m => Js.bind m k.

(** ** Strings *)

Module Str.

Definition of_bytes (l : list nat) : string :=
  String.string_of_list_ascii (map Ascii.ascii_of_nat l).

Definition LF : string := of_bytes [10].

Fixpoint drop (n : nat) (s : string) : string :=
  match n, s with
  | 0, _ => s
  | S n', String _ s' => drop n' s'
  | S _, EmptyString => EmptyString
  end.

(** [hay.includes(needle)] *)
Definition includes (needle hay : string) : bool :=
  match String.index 0 needle hay with
  | Some _ => true
  | None => false
  end.

(** The code points [String.prototype.trim] removes (WhiteSpace and
    LineTerminator of ECMAScript), in UTF-8. *)
Definition white_space : list string :=
  map of_bytes
    [ [9]; [10]; [11]; [12]; [13]; [32];
      [194; 160];                                   (* U+00A0 *)
      [225; 154; 128];                              (* U+1680 *)
      [226; 128; 128]; [226; 128; 129]; [226; 128; 130]; [226; 128; 131];
      [226; 128; 132]; [226; 128; 133]; [226; 128; 134]; [226; 128; 135];
      [226; 128; 136]; [226; 128; 137]; [226; 128; 138]; (* U+2000..U+200A *)
      [226; 128; 168]; [226; 128; 169];             (* U+2028, U+2029 *)
      [226; 128; 175];                              (* U+202F *)
      [226; 129; 159];                              (* U+205F *)
      [227; 128; 128];                              (* U+3000 *)
      [239; 187; 191] ].                            (* U+FEFF *)

(** The rest of [s] after one of [ps] it begins with. *)
Fixpoint strip_one (ps : list string) (s : string) : option string :=
  match ps with
  | [] => None
  | p :: ps' =>
      if String.prefix p s then Some (drop (String.length p) s)
      else strip_one ps' s
  end.

Fixpoint strip_all (fuel : nat) (ps : list string) (s : string) : string :=
  match fuel with
  | 0 => s
  | S fuel' =>
      match strip_one ps s with
      | Some s' => strip_all fuel' ps s'
      | None => s
      end
  end.

Definition trimStart (s : string) : string :=
  strip_all (String.length s) white_space s.

Definition trimEnd (s : string) : string :=
  String.rev (strip_all (String.length s) (map String.rev white_space) (String.rev s)).

Definition trim (s : string) : string := trimEnd (trimStart s).

(** [s.split(sep).pop()] for a one-character [sep]: what follows the
    last [sep], all of [s] when there is none. *)
Fixpoint after_last (sep : Ascii.ascii) (s : string) : string :=
  match s with
  | EmptyString => EmptyString
  | String c s' =>
      if existsb (Ascii.eqb sep) (String.list_ascii_of_string s') then after_last sep s'
      else if Ascii.eqb c sep then s' else s
  end.

Definition lower (c : Ascii.ascii) : Ascii.ascii :=
  let n := Ascii.nat_of_ascii c in
  if Nat.leb 65 n && Nat.leb n 90 then Ascii.ascii_of_nat (n + 32) else c.

(** [toLowerCase] on the ASCII letters.  The two other letters whose
    lower case has an ASCII letter in it (U+212A, U+0130) give no
    extension of the lists [createStepElement] compares with. *)
Fixpoint toLowerCase (s : string) : string :=
  match s with
  | EmptyString => EmptyString
  | String c s' => String (lower c) (toLowerCase s')
  end.

Definition is_digit (c : Ascii.ascii) : bool :=
  let n := Ascii.nat_of_ascii c in Nat.leb 48 n && Nat.leb n 57.

(** The longest prefix of decimal digits, and the rest. *)
Fixpoint span_digits (s : string) : string * string :=
  match s with
  | String c s' =>
      if is_digit c then let (d, r) := span_digits s' in (String c d, r)
      else (EmptyString, s)
  | EmptyString => (EmptyString, EmptyString)
  end.

(** [parseInt] of a string of decimal digits. *)
Definition parseInt (digits : string) : N :=
  fold_left (fun acc c => (10 * acc + N.of_nat (Ascii.nat_of_ascii c - 48))%N)
            (String.list_ascii_of_string digits) 0%N.

(** The first position of [s] where [here] matches: the search of an
    unanchored regular expression. *)
Fixpoint search {A} (here : string -> option A) (s : string) : option A :=
  match here s with
  | Some a => Some a
  | None =>
      match s with
      | EmptyString => None
      | String _ s' => search here s'
      end
  end.

(** The line terminators, which [.] does not match. *)
Definition line_terminators : list string :=
  map of_bytes [ [10]; [13]; [226; 128; 168]; [226; 128; 169] ].

(** The longest prefix without a line terminator. *)
Fixpoint line (s : string) : string :=
  match s with
  | EmptyString => EmptyString
  | String c s' =>
      if existsb (fun t => String.prefix t s) line_terminators then EmptyString
      else String c (line s')
  end.

End Str.

(** ** Event Dispatcher: icons, labels and step elements *)

(** What a template literal shows for a looked-up property: the text
    of an own property, or a built-in inherited from [Object.prototype]
    (an object literal is not a bare dictionary). *)
Inductive display :=
| Text (s : string)
| Builtin (name : string).

Definition object_prototype : list string :=
  [ "constructor"; "__defineGetter__"; "__defineSetter__"; "hasOwnProperty";
    "__lookupGetter__"; "__lookupSetter__"; "isPrototypeOf";
    "propertyIsEnumerable"; "toString"; "valueOf"; "__proto__";
    "toLocaleString" ].

Fixpoint assoc (k : string) (table : list (string * string)) : option string :=
  match table with
  | [] => None
  | (k', v) :: rest => if String.eqb k k' then Some v else assoc k rest
  end.

(** [table[k] || fallback], every own value of [table] being a
    non-empty string. *)
Definition lookup_or (table : list (string * string)) (k fallback : string) : display :=
  match assoc k table with
  | Some v => Text v
  | None =>
      if existsb (String.eqb k) object_prototype then Builtin k else Text fallback
  end.

Definition icons : list (string * string) :=
  [ ("think", "🤔"); ("tool", "🛠️"); ("act", "🚀"); ("result", "🏁");
    ("error", "❌"); ("complete", "✅"); ("log", "📝"); ("run", "⚙️");
    ("ask_human", "💬") ].

Definition labels : list (string * string) :=
  [ ("think", "Thinking"); ("tool", "Using Tool"); ("act", "Action");
    ("result", "Result"); ("error", "Error"); ("complete", "Complete");
    ("log", "Log"); ("run", "Running"); ("ask_human", "Question for User") ].

Definition getEventIcon (eventType : string) : display :=
  lookup_or icons eventType "ℹ️".

Definition getEventLabel (eventType : string) : display :=
  lookup_or labels eventType "Info".

Inductive file_kind := ImagePreview | AudioPlayer | CodeFile | Download.

Record file_ref := { fileName : string; fileExtension : string; kind : file_kind }.

(** One child of the step container. *)
Inductive step_element :=
| StepDivider (currentStep totalSteps : N)
| StepItem (type : string) (icon label : display) (timestamp : string)
           (content : value) (file : option file_ref)
| StepAskError (timestamp : string)
| StepAsk (timestamp : string) (question : value) (em : string).

(** [/Executing step (\d+)\/(\d+)/] at the head of [s]: the two captures. *)
Definition step_here (s : string) : option (string * string) :=
  let lit := "Executing step " in
  if String.prefix lit s then
    let (d1, r) := Str.span_digits (Str.drop (String.length lit) s) in
    match d1, r with
    | String _ _, String "/"%char r' =>
        let (d2, _) := Str.span_digits r' in
        match d2 with
        | String _ _ => Some (d1, d2)
        | EmptyString => None
        end
    | _, _ => None
    end
  else None.

Definition stepRegex (s : string) : option (string * string) :=
  Str.search step_here s.

(** [/Content successfully saved to (.+)/] at the head of [s]: the capture. *)
Definition save_here (s : string) : option string :=
  let lit := "Content successfully saved to " in
  if String.prefix lit s then
    match Str.line (Str.drop (String.length lit) s) with
    | EmptyString => None
    | path => Some path
    end
  else None.

Definition saveRegex (s : string) : option string :=
  Str.search save_here s.

Definition file_of (capture : string) : file_ref :=
  let filePath := Str.trim capture in
  let name := Str.after_last "/"%char filePath in
  let ext := Str.toLowerCase (Str.after_last "."%char name) in
  let among l := existsb (String.eqb ext) l in
  {| fileName := name;
     fileExtension := ext;
     kind := if among ["jpg"; "jpeg"; "png"; "gif"; "svg"; "webp"] then ImagePreview
             else if among ["mp3"; "wav"; "ogg"] then AudioPlayer
             else if among ["html"; "js"; "py"] then CodeFile
             else Download |}.

Definition formatStepContent (data : value) (eventType : string) : outcome value :=
  get data "result".

(** [content.match] is a method of strings: on anything else the call
    is a TypeError.  [stepRegex.test] converts its argument instead. *)
Definition createStepElement (type : string) (content : value) (timestamp : string)
  : outcome step_element :=
  if String.eqb type "log" && bool_decide (is_Some (stepRegex (to_string content))) then
    match content with
    | Val (JStr s) =>
        match stepRegex s with
        | Some (d1, d2) => Ok (StepDivider (Str.parseInt d1) (Str.parseInt d2))
        | None => Throw PlatformError
        end
    | _ => Throw PlatformError
    end
  else if String.eqb type "act" then
    match content with
    | Val (JStr s) =>
        Ok (StepItem type (getEventIcon type) (getEventLabel type) timestamp content
                     (file_of <$> saveRegex s))
    | _ => Throw PlatformError
    end
  else
    Ok (StepItem type (getEventIcon type) (getEventLabel type) timestamp content None).

(** ** The page *)

(** The children of [#task-container]. *)
Inductive node :=
| Loading
| Ping
| StepContainer (steps : list step_element)
| Complete (result : option value)
| ErrorBox (message : value)
| Cancelled
| Warning (retryCount : nat)
| ConnectionLost
| CreateError (e : error).

Definition is_step_container (n : node) : bool :=
  match n with StepContainer _ => true | _ => false end.

Definition ensureStepContainer (container : list node) : list node :=
  if existsb is_step_container container then container else [StepContainer []].

(** [stepContainer.appendChild(st)], the step container being the first one. *)
Fixpoint appendChild (st : step_element) (container : list node) : list node :=
  match container with
  | [] => []
  | StepContainer steps :: rest => StepContainer (steps ++ [st]) :: rest
  | n :: rest => n :: appendChild st rest
  end.

(** [container.querySelector('.loading')?.remove()] *)
Fixpoint remove_loading (container : list node) : list node :=
  match container with
  | [] => []
  | Loading :: rest => rest
  | n :: rest => n :: remove_loading rest
  end.

(** [EventSource.readyState] *)
Inductive readyState := CONNECTING | OPEN | CLOSED.

Definition readyState_eqb (a b : readyState) : bool :=
  match a, b with
  | CONNECTING, CONNECTING | OPEN, OPEN | CLOSED, CLOSED => true
  | _, _ => false
  end.

(** One [new EventSource(...)] of [connect]: the [setupSSE] call whose
    closure made it, its ready state, and whether the [heartbeatTimer]
    that [connect] armed beside it is still armed. *)
Record eventSource := {
  es_session : nat;
  es_ready : readyState;
  es_heartbeat : bool
}.

(** The variables of one [setupSSE(taskId)] call. *)
Record session := {
  taskId : json;
  retryCount : nat;
  lastResultContent : value
}.

Definition maxRetries : nat := 3.
Definition retryDelay : nat := 2000.

Inductive action := Respond | Skip.

(** The three [fetch(`/tasks/${taskId}`)] of [connect] whose reply goes
    to [updateTaskStatus] differ by the message of their [catch]. *)
Inductive poll_site := Initial | AfterStep | Final.

(** A [fetch] that has not settled, named by the continuation that
    waits for it. *)
Inductive fetch :=
| GetStatus (site : poll_site) (task : json) (* fetch(`/tasks/${taskId}`), then updateTaskStatus *)
| GetStatusOnError (sid : nat)       (* the same request, made by onerror *)
| PostTask (prompt : string)         (* POST /tasks {prompt} *)
| GetHistory                         (* GET /tasks *)
| PostRespond (task : string) (request_id : json) (response : string) (a : action).

(** A pending [setTimeout]. *)
Inductive timer :=
| Reconnect (sid : nat)              (* setTimeout(connect, retryDelay) *)
| CloseModal                         (* setTimeout(closeAskHumanModal, 1500) *)
| RemoveModal (mid : nat).           (* setTimeout(() => modal.remove(), 300) *)

Inductive footer :=
| FooterWaiting
| FooterLoading
| FooterError (message : string)
| FooterSuccess (message : string).

(** The element [#ask-human-modal]. *)
Record modal := {
  m_id : nat;
  m_task : json;
  m_request : json;
  m_question : value;
  m_textarea : string;
  m_disabled : bool;
  m_footer : footer;
  m_fading : bool
}.

Inductive status_bar :=
| StatusUntouched
| StatusComplete
| StatusCancelled
| StatusFailed (e : value)
| StatusRunning (s : value).

(** What the handlers do to the outside, in order. *)
Inductive effect :=
| NewEventSource (ch sid : nat)
| Close (ch : nat)
| Fetch (f : fetch)
| SetTimeout (t : timer)
| Alert (message : string)
| ConsoleError (message : string)
| Focus.

Record world := {
  sessions : list session;
  sources : list eventSource;
  currentEventSource : option nat;
  currentTaskId : option json;
  inflight : list fetch;
  timers : list timer;
  container : list node;
  containerActive : bool;
  inputBottom : bool;
  statusBar : option status_bar;      (* None: the page has no #status-bar *)
  cancelBtn : option bool;            (* None: no #cancel-task-btn; Some shown *)
  promptInput : string;
  askModal : option modal;
  modalSeq : nat;
  escapeHandlers : list (json * json);
  trace : list effect
}.

Definition set_sessions (f : list session -> list session) (w : world) : world :=
  {| sessions := f (sessions w); sources := sources w;
     currentEventSource := currentEventSource w; currentTaskId := currentTaskId w;
     inflight := inflight w; timers := timers w; container := container w;
     containerActive := containerActive w; inputBottom := inputBottom w;
     statusBar := statusBar w; cancelBtn := cancelBtn w; promptInput := promptInput w;
     askModal := askModal w; modalSeq := modalSeq w;
     escapeHandlers := escapeHandlers w; trace := trace w |}.

Definition set_sources (f : list eventSource -> list eventSource) (w : world) : world :=
  {| sessions := sessions w; sources := f (sources w);
     currentEventSource := currentEventSource w; currentTaskId := currentTaskId w;
     inflight := inflight w; timers := timers w; container := container w;
     containerActive := containerActive w; inputBottom := inputBottom w;
     statusBar := statusBar w; cancelBtn := cancelBtn w; promptInput := promptInput w;
     askModal := askModal w; modalSeq := modalSeq w;
     escapeHandlers := escapeHandlers w; trace := trace w |}.

Definition set_currentEventSource (v : option nat) (w : world) : world :=
  {| sessions := sessions w; sources := sources w;
     currentEventSource := v; currentTaskId := currentTaskId w;
     inflight := inflight w; timers := timers w; container := container w;
     containerActive := containerActive w; inputBottom := inputBottom w;
     statusBar := statusBar w; cancelBtn := cancelBtn w; promptInput := promptInput w;
     askModal := askModal w; modalSeq := modalSeq w;
     escapeHandlers := escapeHandlers w; trace := trace w |}.

Definition set_currentTaskId (v : option json) (w : world) : world :=
  {| sessions := sessions w; sources := sources w;
     currentEventSource := currentEventSource w; currentTaskId := v;
     inflight := inflight w; timers := timers w; container := container w;
     containerActive := containerActive w; inputBottom := inputBottom w;
     statusBar := statusBar w; cancelBtn := cancelBtn w; promptInput := promptInput w;
     askModal := askModal w; modalSeq := modalSeq w;
     escapeHandlers := escapeHandlers w; trace := trace w |}.

Definition set_inflight (f : list fetch -> list fetch) (w : world) : world :=
  {| sessions := sessions w; sources := sources w;
     currentEventSource := currentEventSource w; currentTaskId := currentTaskId w;
     inflight := f (inflight w); timers := timers w; container := container w;
     containerActive := containerActive w; inputBottom := inputBottom w;
     statusBar := statusBar w; cancelBtn := cancelBtn w; promptInput := promptInput w;
     askModal := askModal w; modalSeq := modalSeq w;
     escapeHandlers := escapeHandlers w; trace := trace w |}.

Definition set_timers (f : list timer -> list timer) (w : world) : world :=
  {| sessions := sessions w; sources := sources w;
     currentEventSource := currentEventSource w; currentTaskId := currentTaskId w;
     inflight := inflight w; timers := f (timers w); container := container w;
     containerActive := containerActive w; inputBottom := inputBottom w;
     statusBar := statusBar w; cancelBtn := cancelBtn w; promptInput := promptInput w;
     askModal := askModal w; modalSeq := modalSeq w;
     escapeHandlers := escapeHandlers w; trace := trace w |}.

Definition set_container (f : list node -> list node) (w : world) : world :=
  {| sessions := sessions w; sources := sources w;
     currentEventSource := currentEventSource w; currentTaskId := currentTaskId w;
     inflight := inflight w; timers := timers w; container := f (container w);
     containerActive := containerActive w; inputBottom := inputBottom w;
     statusBar := statusBar w; cancelBtn := cancelBtn w; promptInput := promptInput w;
     askModal := askModal w; modalSeq := modalSeq w;
     escapeHandlers := escapeHandlers w; trace := trace w |}.

Definition set_containerActive (v : bool) (w : world) : world :=
  {| sessions := sessions w; sources := sources w;
     currentEventSource := currentEventSource w; currentTaskId := currentTaskId w;
     inflight := inflight w; timers := timers w; container := container w;
     containerActive := v; inputBottom := inputBottom w;
     statusBar := statusBar w; cancelBtn := cancelBtn w; promptInput := promptInput w;
     askModal := askModal w; modalSeq := modalSeq w;
     escapeHandlers := escapeHandlers w; trace := trace w |}.

Definition set_inputBottom (v : bool) (w : world) : world :=
  {| sessions := sessions w; sources := sources w;
     currentEventSource := currentEventSource w; currentTaskId := currentTaskId w;
     inflight := inflight w; timers := timers w; container := container w;
     containerActive := containerActive w; inputBottom := v;
     statusBar := statusBar w; cancelBtn := cancelBtn w; promptInput := promptInput w;
     askModal := askModal w; modalSeq := modalSeq w;
     escapeHandlers := escapeHandlers w; trace := trace w |}.

Definition set_statusBar (v : option status_bar) (w : world) : world :=
  {| sessions := sessions w; sources := sources w;
     currentEventSource := currentEventSource w; currentTaskId := currentTaskId w;
     inflight := inflight w; timers := timers w; container := container w;
     containerActive := containerActive w; inputBottom := inputBottom w;
     statusBar := v; cancelBtn := cancelBtn w; promptInput := promptInput w;
     askModal := askModal w; modalSeq := modalSeq w;
     escapeHandlers := escapeHandlers w; trace := trace w |}.

Definition set_cancelBtn (v : option bool) (w : world) : world :=
  {| sessions := sessions w; sources := sources w;
     currentEventSource := currentEventSource w; currentTaskId := currentTaskId w;
     inflight := inflight w; timers := timers w; container := container w;
     containerActive := containerActive w; inputBottom := inputBottom w;
     statusBar := statusBar w; cancelBtn := v; promptInput := promptInput w;
     askModal := askModal w; modalSeq := modalSeq w;
     escapeHandlers := escapeHandlers w; trace := trace w |}.

Definition set_promptInput (v : string) (w : world) : world :=
  {| sessions := sessions w; sources := sources w;
     currentEventSource := currentEventSource w; currentTaskId := currentTaskId w;
     inflight := inflight w; timers := timers w; container := container w;
     containerActive := containerActive w; inputBottom := inputBottom w;
     statusBar := statusBar w; cancelBtn := cancelBtn w; promptInput := v;
     askModal := askModal w; modalSeq := modalSeq w;
     escapeHandlers := escapeHandlers w; trace := trace w |}.

Definition set_askModal (v : option modal) (w : world) : world :=
  {| sessions := sessions w; sources := sources w;
     currentEventSource := currentEventSource w; currentTaskId := currentTaskId w;
     inflight := inflight w; timers := timers w; container := container w;
     containerActive := containerActive w; inputBottom := inputBottom w;
     statusBar := statusBar w; cancelBtn := cancelBtn w; promptInput := promptInput w;
     askModal := v; modalSeq := modalSeq w;
     escapeHandlers := escapeHandlers w; trace := trace w |}.

Definition set_modalSeq (v : nat) (w : world) : world :=
  {| sessions := sessions w; sources := sources w;
     currentEventSource := currentEventSource w; currentTaskId := currentTaskId w;
     inflight := inflight w; timers := timers w; container := container w;
     containerActive := containerActive w; inputBottom := inputBottom w;
     statusBar := statusBar w; cancelBtn := cancelBtn w; promptInput := promptInput w;
     askModal := askModal w; modalSeq := v;
     escapeHandlers := escapeHandlers w; trace := trace w |}.

Definition set_escapeHandlers (f : list (json * json) -> list (json * json)) (w : world) : world :=
  {| sessions := sessions w; sources := sources w;
     currentEventSource := currentEventSource w; currentTaskId := currentTaskId w;
     inflight := inflight w; timers := timers w; container := container w;
     containerActive := containerActive w; inputBottom := inputBottom w;
     statusBar := statusBar w; cancelBtn := cancelBtn w; promptInput := promptInput w;
     askModal := askModal w; modalSeq := modalSeq w;
     escapeHandlers := f (escapeHandlers w); trace := trace w |}.

Definition emit (e : effect) (w : world) : world :=
  {| sessions := sessions w; sources := sources w;
     currentEventSource := currentEventSource w; currentTaskId := currentTaskId w;
     inflight := inflight w; timers := timers w; container := container w;
     containerActive := containerActive w; inputBottom := inputBottom w;
     statusBar := statusBar w; cancelBtn := cancelBtn w; promptInput := promptInput w;
     askModal := askModal w; modalSeq := modalSeq w;
     escapeHandlers := escapeHandlers w; trace := trace w ++ [e] |}.

(** ** Primitive effects *)

Definition do_fetch (f : fetch) (w : world) : world :=
  emit (Fetch f) (set_inflight (fun l => l ++ [f]) w).

Definition setTimeout (t : timer) (w : world) : world :=
  emit (SetTimeout t) (set_timers (fun l => l ++ [t]) w).

Definition console_error (message : string) (w : world) : world :=
  emit (ConsoleError message) w.

Definition closed (es : eventSource) : eventSource :=
  {| es_session := es_session es; es_ready := CLOSED; es_heartbeat := es_heartbeat es |}.

Definition with_ready (r : readyState) (es : eventSource) : eventSource :=
  {| es_session := es_session es; es_ready := r; es_heartbeat := es_heartbeat es |}.

Definition disarmed (es : eventSource) : eventSource :=
  {| es_session := es_session es; es_ready := es_ready es; es_heartbeat := false |}.

(** [eventSource.close()] *)
Definition close (ch : nat) (w : world) : world :=
  emit (Close ch) (set_sources (alter closed ch) w).

(** [clearInterval(heartbeatTimer)] *)
Definition clearInterval (ch : nat) (w : world) : world :=
  set_sources (alter disarmed ch) w.

Definition append_node (n : node) (w : world) : world :=
  set_container (fun c => c ++ [n]) w.

Definition showCancelButton (w : world) : world :=
  set_cancelBtn (match cancelBtn w with Some _ => Some true | None => None end) w.

Definition hideCancelButton (w : world) : world :=
  set_cancelBtn (match cancelBtn w with Some _ => Some false | None => None end) w.

(** [if (currentEventSource) { currentEventSource.close(); currentEventSource = null; }] *)
Definition close_current (w : world) : world :=
  match currentEventSource w with
  | Some ch => set_currentEventSource None (close ch w)
  | None => w
  end.

(** ** Status Reconciler *)

Definition updateTaskStatus (task : value) (w : world) : outcome world :=
  match statusBar w with
  | None => Ok w
  | Some _ =>
      status ← get task "status";
      if is_string status "completed" then
        Ok (close_current (hideCancelButton (set_statusBar (Some StatusComplete) w)))
      else if is_string status "cancelled" then
        Ok (close_current (hideCancelButton (set_statusBar (Some StatusCancelled) w)))
      else if is_string status "failed" then
        e ← get task "error";
        Ok (close_current (hideCancelButton
              (set_statusBar (Some (StatusFailed (Js.or e (Val (JStr "Unknown error"))))) w)))
      else if is_string status "running" then
        Ok (showCancelButton (set_statusBar (Some (StatusRunning status)) w))
      else
        Ok (set_statusBar (Some (StatusRunning status)) w)
  end.

(** ** Human Handshake Coordinator *)

Definition dquote : string := Str.of_bytes [34].

Definition skip_sentinel : string := "User chose to skip this question.".
Definition waiting_text : string := "Waiting for user response...".
Definition waiting_needle : string := "Waiting for user response".

(** A line break of a template literal and the indentation after it. *)
Definition nl (indent : nat) : string :=
  Str.LF +:+ String.string_of_list_ascii (replicate indent " "%char).

(** [element.textContent] of a [.step-item.ask_human] element. *)
Definition textContent (st : step_element) : string :=
  match st with
  | StepAsk timestamp question em =>
      nl 8 +:+ nl 12 +:+ "💬 [" +:+ timestamp +:+ "] Question for User:"
        +:+ nl 12 +:+ nl 16 +:+ to_string question +:+ nl 16 +:+ em
        +:+ nl 12 +:+ nl 8 +:+ nl 4
  | StepAskError timestamp =>
      nl 12 +:+ nl 16 +:+ "💬 [" +:+ timestamp +:+ "] Question for User:"
        +:+ nl 16 +:+ "Error: No request ID found" +:+ nl 12 +:+ nl 8
  | _ => ""
  end.

Definition showModalError (message : string) (w : world) : world :=
  match askModal w with
  | None => w
  | Some m =>
      set_askModal (Some {| m_id := m_id m; m_task := m_task m; m_request := m_request m;
                            m_question := m_question m; m_textarea := m_textarea m;
                            m_disabled := m_disabled m; m_footer := FooterError message;
                            m_fading := m_fading m |}) w
  end.

Definition showModalLoading (w : world) : world :=
  match askModal w with
  | None => w
  | Some m =>
      set_askModal (Some {| m_id := m_id m; m_task := m_task m; m_request := m_request m;
                            m_question := m_question m; m_textarea := m_textarea m;
                            m_disabled := true; m_footer := FooterLoading;
                            m_fading := m_fading m |}) w
  end.

Definition showModalSuccess (message : string) (w : world) : world :=
  match askModal w with
  | None => w
  | Some m =>
      set_askModal (Some {| m_id := m_id m; m_task := m_task m; m_request := m_request m;
                            m_question := m_question m; m_textarea := m_textarea m;
                            m_disabled := m_disabled m; m_footer := FooterSuccess message;
                            m_fading := m_fading m |}) w
  end.

Definition closeAskHumanModal (w : world) : world :=
  match askModal w with
  | None => w
  | Some m =>
      setTimeout (RemoveModal (m_id m))
        (set_askModal (Some {| m_id := m_id m; m_task := m_task m; m_request := m_request m;
                               m_question := m_question m; m_textarea := m_textarea m;
                               m_disabled := m_disabled m; m_footer := m_footer m;
                               m_fading := true |}) w)
  end.

(** The keydown listener of [showAskHumanModal] stays on the document:
    nothing dispatches the [remove] event that would take it off. *)
Definition showAskHumanModal (question : value) (requestId task : json) (w : world) : world :=
  let m := {| m_id := modalSeq w; m_task := task; m_request := requestId;
              m_question := question; m_textarea := ""; m_disabled := false;
              m_footer := FooterWaiting; m_fading := false |} in
  set_escapeHandlers (fun l => l ++ [(task, requestId)])
    (set_modalSeq (S (modalSeq w)) (set_askModal (Some m) w)).

Definition createHumanRequestElement (data : value) (task : json) (now : string)
    (w : world) : outcome (step_element * world) :=
  result ← get data "result";
  question ← (if typeof_object result then get result "question" else Ok result);
  requestId ← (if typeof_object result then get result "request_id" else Ok (Val JNull));
  match requestId with
  | Val rid =>
      if truthy requestId then
        Ok (StepAsk now question waiting_text, showAskHumanModal question rid task w)
      else
        Ok (StepAskError now, console_error "No request_id found in ask_human data:" w)
  | Undefined =>
      Ok (StepAskError now, console_error "No request_id found in ask_human data:" w)
  end.

(** The loop of [updateLogElement] over one step container: [None]
    when no element matches, a TypeError when the match has no [em]. *)
Fixpoint update_steps (text : string) (steps : list step_element) : option (outcome (list step_element)) :=
  match steps with
  | [] => None
  | st :: rest =>
      let skip :=
        (fun r => match r with Ok l => Ok (st :: l) | Throw e => Throw e end)
          <$> update_steps text rest in
      match st with
      | StepAsk timestamp question _ =>
          if Str.includes waiting_needle (textContent st)
          then Some (Ok (StepAsk timestamp question text :: rest))
          else skip
      | StepAskError _ =>
          if Str.includes waiting_needle (textContent st)
          then Some (Throw PlatformError)
          else skip
      | _ => skip
      end
  end.

(** The same loop over the step containers of the page, in document order. *)
Fixpoint update_nodes (text : string) (nodes : list node) : option (outcome (list node)) :=
  match nodes with
  | [] => None
  | StepContainer steps :: rest =>
      match update_steps text steps with
      | Some (Ok steps') => Some (Ok (StepContainer steps' :: rest))
      | Some (Throw e) => Some (Throw e)
      | None =>
          (fun r => match r with
                    | Ok l => Ok (StepContainer steps :: l)
                    | Throw e => Throw e
                    end) <$> update_nodes text rest
      end
  | n :: rest =>
      (fun r => match r with Ok l => Ok (n :: l) | Throw e => Throw e end)
        <$> update_nodes text rest
  end.

(** [requestId] is a parameter the body never reads: the element
    updated is the first one that still shows the waiting text. *)
Definition updateLogElement (requestId : value) (response : string) (a : action)
    (w : world) : outcome world :=
  let responseText :=
    match a with Skip => "(skipped)" | Respond => dquote +:+ response +:+ dquote end in
  match update_nodes ("User response: " +:+ responseText) (container w) with
  | None => Ok w
  | Some (Ok c) => Ok (set_container (fun _ => c) w)
  | Some (Throw e) => Throw e
  end.

(** [document.getElementById(responseElementId)], the textarea of the
    modal when its id is the one asked for. *)
Definition responseElement (responseElementId : string) (w : world) : option string :=
  match askModal w with
  | Some m =>
      if String.eqb ("response_" +:+ json_to_string (m_request m)) responseElementId
      then Some (m_textarea m) else None
  | None => None
  end.

(** [respondToHumanModal] up to its [await fetch(...)]. *)
Definition respondToHumanModal (task : string) (requestId : json)
    (responseElementId : string) (a : action) (w : world) : world :=
  let response :=
    match a with
    | Skip => skip_sentinel
    | Respond =>
        match responseElement responseElementId w with
        | Some v => Str.trim v
        | None => ""
        end
    end in
  if String.eqb response "" then
    showModalError ("Please enter a response or click " +:+ dquote +:+ "Skip" +:+ dquote) w
  else
    do_fetch (PostRespond task requestId response a) (showModalLoading w).

(** The reply of a fetch: it is rejected, or a response arrives whose
    body [response.json()] parses or not. *)
Inductive reply :=
| NetworkError
| Response (ok : bool) (body : option json).

(** [respondToHumanModal] after its [await fetch(...)]. *)
Definition respond_settled (requestId : json) (response : string) (a : action)
    (r : reply) (w : world) : world :=
  let failed w :=
    showModalError "Network error. Please try again."
      (console_error "Error sending response:" w) in
  match r with
  | NetworkError => failed w
  | Response true _ =>
      let w1 := showModalSuccess
                  (match a with
                   | Skip => "✓ Question skipped"
                   | Respond => "✓ Response sent successfully"
                   end) w in
      match updateLogElement (Val requestId) response a w1 with
      | Ok w2 => setTimeout CloseModal w2
      | Throw _ => failed w1
      end
  | Response false None => failed w
  | Response false (Some errorData) =>
      match get (Val errorData) "detail" with
      | Ok detail =>
          showModalError
            ("Error: " +:+ to_string (Js.or detail (Val (JStr "Failed to send response")))) w
      | Throw _ => failed w
      end
  end.

(** ** Task Stream Controller and Reconnection Policy *)

Definition new_source (sid : nat) : eventSource :=
  {| es_session := sid; es_ready := CONNECTING; es_heartbeat := true |}.

(** [connect()] of the [setupSSE] call [sid], up to the registration of
    the listeners (which are [listen] below). *)
Definition connect (sid : nat) (w : world) : world :=
  match sessions w !! sid with
  | None => w
  | Some ss =>
      let ch := length (sources w) in
      let w := emit (NewEventSource ch sid) (set_sources (fun l => l ++ [new_source sid]) w) in
      let w := set_currentEventSource (Some ch) w in
      do_fetch (GetStatus Initial (taskId ss)) w
  end.

Definition setupSSE (task : json) (w : world) : world :=
  let sid := length (sessions w) in
  connect sid
    (set_sessions (fun l => l ++ [{| taskId := task; retryCount := 0;
                                     lastResultContent := Val (JStr "") |}]) w).

(** The session and task id in the closure of the listeners of [ch]. *)
Definition closure (ch : nat) (w : world) : option (nat * json) :=
  es ← sources w !! ch;
  ss ← sessions w !! es_session es;
  Some (es_session es, taskId ss).

Definition show_step_area (w : world) : world :=
  set_container ensureStepContainer
    (set_containerActive true (set_container remove_loading w)).

(** [handleEvent(event, type)] *)
Definition handleEvent (ch : nat) (task : json) (data : option json) (type now : string)
    (w : world) : world :=
  let w := clearInterval ch w in
  let caught w := console_error ("Error handling " +:+ type +:+ " event:") w in
  match data with
  | None => caught w
  | Some data =>
      let w := show_step_area w in
      match (content ← formatStepContent (Val data) type;
             createStepElement type content now) with
      | Throw _ => caught w
      | Ok st =>
          do_fetch (GetStatus AfterStep task) (set_container (appendChild st) w)
      end
  end.

(** The listener of [ask_human]. *)
Definition on_ask_human (ch : nat) (task : json) (data : option json) (now : string)
    (w : world) : world :=
  let w := clearInterval ch w in
  let caught w := console_error "Error handling ask_human event:" w in
  match data with
  | None => caught w
  | Some data =>
      let w := show_step_area w in
      match createHumanRequestElement (Val data) task now w with
      | Throw _ => caught w
      | Ok (st, w) => set_container (appendChild st) w
      end
  end.

Definition set_lastResultContent (v : value) (ss : session) : session :=
  {| taskId := taskId ss; retryCount := retryCount ss; lastResultContent := v |}.

Definition bump_retryCount (ss : session) : session :=
  {| taskId := taskId ss; retryCount := S (retryCount ss);
     lastResultContent := lastResultContent ss |}.

(** The end of the three terminal listeners:
    [eventSource.close(); currentEventSource = null; currentTaskId = null;] *)
Definition tear_down (ch : nat) (w : world) : world :=
  set_currentTaskId None (set_currentEventSource None (close ch w)).

(** The listener of [complete]. *)
Definition on_complete (ch sid : nat) (task : json) (data : option json) (w : world) : world :=
  let w := clearInterval ch w in
  let caught w := console_error "Error handling complete event:" w in
  match data with
  | None => caught w
  | Some data =>
      match get (Val data) "result" with
      | Throw _ => caught w
      | Ok result =>
          let last := Js.or result (Val (JStr "")) in
          let w := set_sessions (alter (set_lastResultContent last) sid) w in
          let w := append_node (Complete (Some last)) w in
          let w := hideCancelButton w in
          let w := do_fetch (GetStatus Final task) w in
          tear_down ch w
      end
  end.

(** The listener registered with [addEventListener('error', ...)]. *)
Definition on_error_event (ch : nat) (data : option json) (w : world) : world :=
  let w := clearInterval ch w in
  let caught w := console_error "Error handling failed:" w in
  match data with
  | None => caught w
  | Some data =>
      match get (Val data) "message" with
      | Throw _ => caught w
      | Ok message =>
          let w := append_node (ErrorBox message) w in
          let w := hideCancelButton w in
          tear_down ch w
      end
  end.

(** The listener of [cancelled]. *)
Definition on_cancelled (ch : nat) (task : json) (data : option json) (w : world) : world :=
  let w := clearInterval ch w in
  let caught w := console_error "Error handling cancelled event:" w in
  match data with
  | None => caught w
  | Some _ =>
      let w := append_node Cancelled w in
      let w := hideCancelButton w in
      let w := do_fetch (GetStatus Final task) w in
      tear_down ch w
  end.

(** [eventSource.onerror], up to its fetch. *)
Definition onerror (ch sid : nat) (w : world) : world :=
  match sources w !! ch with
  | None => w
  | Some es =>
      if readyState_eqb (es_ready es) CLOSED then w
      else
        let w := console_error "SSE connection error:" w in
        let w := clearInterval ch w in
        let w := close ch w in
        do_fetch (GetStatusOnError sid) w
  end.

(** [if (retryCount < maxRetries) { retryCount++; ...; setTimeout(connect, retryDelay); }],
    with the notices of the [then] branch when [notice] is set. *)
Definition retry (notice : bool) (sid : nat) (w : world) : world :=
  match sessions w !! sid with
  | None => w
  | Some ss =>
      if Nat.ltb (retryCount ss) maxRetries then
        let w := set_sessions (alter bump_retryCount sid) w in
        let w := if notice then append_node (Warning (S (retryCount ss))) w else w in
        setTimeout (Reconnect sid) w
      else if notice then append_node ConnectionLost w
      else w
  end.

(** The continuation of the fetch of [onerror]. *)
Definition onerror_settled (sid : nat) (r : reply) (w : world) : world :=
  let caught w := retry false sid (console_error "Task status check failed:" w) in
  match r with
  | NetworkError | Response _ None => caught w
  | Response _ (Some task) =>
      match get (Val task) "status" with
      | Throw _ => caught w
      | Ok status =>
          if is_string status "completed" || is_string status "failed" then
            match updateTaskStatus (Val task) w with
            | Throw _ => caught w
            | Ok w =>
                if is_string status "completed" then append_node (Complete None) w
                else
                  match get (Val task) "error" with
                  | Ok e => append_node (ErrorBox (Js.or e (Val (JStr "Task failed")))) w
                  | Throw _ => caught w
                  end
            end
          else retry true sid w
      end
  end.

(** The continuation of the three other status fetches. *)
Definition status_settled (site : poll_site) (r : reply) (w : world) : world :=
  let caught w :=
    console_error (match site with
                   | Initial => "Initial status fetch failed:"
                   | AfterStep => "Status update failed:"
                   | Final => "Final status update failed:"
                   end) w in
  match r with
  | NetworkError | Response _ None => caught w
  | Response _ (Some task) =>
      match updateTaskStatus (Val task) w with
      | Ok w => w
      | Throw _ => caught w
      end
  end.

Definition loadHistory (w : world) : world := do_fetch GetHistory w.

(** [createTask()] up to its fetch. *)
Definition createTask (w : world) : world :=
  let prompt := Str.trim (promptInput w) in
  if String.eqb prompt "" then
    emit Focus (emit (Alert "Please enter a valid prompt") w)
  else
    let w := close_current w in
    let w := set_container (fun _ => [Loading]) w in
    let w := set_inputBottom true w in
    let w := showCancelButton w in
    do_fetch (PostTask prompt) w.

(** The continuation of the fetch of [createTask]. *)
Definition createTask_settled (r : reply) (w : world) : world :=
  let caught e w :=
    console_error "Failed to create task:"
      (hideCancelButton (set_container (fun _ => [CreateError e]) w)) in
  match r with
  | NetworkError | Response _ None => caught PlatformError w
  | Response false (Some err) =>
      match get (Val err) "detail" with
      | Ok detail => caught (Error (to_string (Js.or detail (Val (JStr "Request failed"))))) w
      | Throw e => caught e w
      end
  | Response true (Some data) =>
      match get (Val data) "task_id" with
      | Throw e => caught e w
      | Ok Undefined => caught (Error "Invalid task ID") w
      | Ok (Val task_id) =>
          if truthy (Val task_id) then
            let w := set_currentTaskId (Some task_id) w in
            let w := setupSSE task_id w in
            let w := loadHistory w in
            set_promptInput "" w
          else caught (Error "Invalid task ID") w
      end
  end.

(** ** Events *)

Definition eventTypes : list string := ["think"; "tool"; "act"; "log"; "run"; "message"].

(** The listeners [connect] puts on one EventSource, by event type.
    [onerror] is the event handler of type [error]: set after the
    [addEventListener] calls, it runs after the [error] listener, for a
    pushed frame of that name as for an error of the transport. *)
Definition listen (ch sid : nat) (task : json) (name : string) (data : option json)
    (now : string) (w : world) : world :=
  if existsb (String.eqb name) eventTypes then handleEvent ch task data name now w
  else if String.eqb name "ask_human" then on_ask_human ch task data now w
  else if String.eqb name "complete" then on_complete ch sid task data w
  else if String.eqb name "error" then onerror ch sid (on_error_event ch data w)
  else if String.eqb name "cancelled" then on_cancelled ch task data w
  else w.

(** The browser dispatches a pushed frame on an open EventSource only. *)
Definition deliver (ch : nat) (name : string) (data : option json) (now : string)
    (w : world) : world :=
  match sources w !! ch, closure ch w with
  | Some es, Some (sid, task) =>
      if readyState_eqb (es_ready es) OPEN then listen ch sid task name data now w
      else w
  | _, _ => w
  end.

(** The browser loses the connection of an EventSource that is not
    closed: it sets [readyState] to CLOSED when it gives up and to
    CONNECTING when it will reconnect by itself, then fires [error], an
    event without [data]. *)
Definition transport_error (ch : nat) (fatal : bool) (now : string) (w : world) : world :=
  match sources w !! ch, closure ch w with
  | Some es, Some (sid, task) =>
      if readyState_eqb (es_ready es) CLOSED then w
      else
        let r := if fatal then CLOSED else CONNECTING in
        listen ch sid task "error" None now (set_sources (alter (with_ready r) ch) w)
  | _, _ => w
  end.

Definition announce (ch : nat) (w : world) : world :=
  match sources w !! ch with
  | Some es =>
      if readyState_eqb (es_ready es) CONNECTING
      then set_sources (alter (with_ready OPEN) ch) w else w
  | None => w
  end.

Definition heartbeat (ch : nat) (w : world) : world :=
  match sources w !! ch with
  | Some es => if es_heartbeat es then append_node Ping w else w
  | None => w
  end.

(** A click on a button of the modal: the inline handler holds the
    ids as text.  A disabled button dispatches no click. *)
Definition click (a : action) (w : world) : world :=
  match askModal w with
  | Some m =>
      if m_disabled m then w
      else
        let rid := json_to_string (m_request m) in
        respondToHumanModal (json_to_string (m_task m)) (JStr rid) ("response_" +:+ rid) a w
  | None => w
  end.

(** Escape: every [handleEscape] still on the document asks
    [confirm(...)], in turn. *)
Fixpoint escape (handlers : list (json * json)) (confirms : list bool) (w : world) : world :=
  match handlers, confirms with
  | (task, rid) :: hs, true :: cs =>
      escape hs cs
        (respondToHumanModal (json_to_string task) rid
           ("response_" +:+ json_to_string rid) Skip w)
  | _ :: hs, false :: cs => escape hs cs w
  | _, _ => w
  end.

Definition type_answer (s : string) (w : world) : world :=
  match askModal w with
  | None => w
  | Some m =>
      set_askModal (Some {| m_id := m_id m; m_task := m_task m; m_request := m_request m;
                            m_question := m_question m; m_textarea := s;
                            m_disabled := m_disabled m; m_footer := m_footer m;
                            m_fading := m_fading m |}) w
  end.

Definition settle (i : nat) (r : reply) (w : world) : world :=
  match inflight w !! i with
  | None => w
  | Some f =>
      let w := set_inflight (delete i) w in
      match f with
      | GetStatus site _ => status_settled site r w
      | GetStatusOnError sid => onerror_settled sid r w
      | PostTask _ => createTask_settled r w
      | GetHistory => w
      | PostRespond _ rid response a => respond_settled rid response a r w
      end
  end.

Definition fire (i : nat) (w : world) : world :=
  match timers w !! i with
  | None => w
  | Some t =>
      let w := set_timers (delete i) w in
      match t with
      | Reconnect sid => connect sid w
      | CloseModal => closeAskHumanModal w
      | RemoveModal mid =>
          match askModal w with
          | Some m => if Nat.eqb (m_id m) mid then set_askModal None w else w
          | None => w
          end
      end
  end.

(** What the environment does between two handlers. *)
Inductive event :=
| UserTypesPrompt (s : string)
| UserSubmitsPrompt
| UserTypesAnswer (s : string)
| UserClicks (a : action)
| UserPressesEscape (confirms : list bool)
| Opened (ch : nat)
| Frame (ch : nat) (name : string) (data : option json) (now : string)
| TransportError (ch : nat) (fatal : bool) (now : string)
| Settles (i : nat) (r : reply)
| Fires (i : nat)
| HeartbeatTick (ch : nat).

Definition step (w : world) (e : event) : world :=
  match e with
  | UserTypesPrompt s => set_promptInput s w
  | UserSubmitsPrompt => createTask w
  | UserTypesAnswer s => type_answer s w
  | UserClicks a => click a w
  | UserPressesEscape confirms => escape (escapeHandlers w) confirms w
  | Opened ch => announce ch w
  | Frame ch name data now => deliver ch name data now w
  | TransportError ch fatal now => transport_error ch fatal now w
  | Settles i r => settle i r w
  | Fires i => fire i w
  | HeartbeatTick ch => heartbeat ch w
  end.

Definition run (w : world) (es : list event) : world := fold_left step es w.

(** The page once loaded: [DOMContentLoaded] has called [loadHistory].
    [bar] and [btn] say whether the page has [#status-bar] and
    [#cancel-task-btn]. *)
Definition init (bar btn : bool) : world :=
  {| sessions := []; sources := []; currentEventSource := None; currentTaskId := None;
     inflight := [GetHistory]; timers := []; container := []; containerActive := false;
     inputBottom := false;
     statusBar := if bar then Some StatusUntouched else None;
     cancelBtn := if btn then Some false else None;
     promptInput := ""; askModal := None; modalSeq := 0; escapeHandlers := [];
     trace := [Fetch GetHistory] |}.

(** ** Scenarios *)

Definition registered : list string :=
  eventTypes ++ ["ask_human"; "complete"; "error"; "cancelled"].

(** A task has been created and its EventSource is open. *)
Definition started : world :=
  run (init true true)
    [ UserTypesPrompt "Summarize file X";
      UserSubmitsPrompt;
      Settles 1 (Response true (Some (JObj [("task_id", JStr "t1")])));
      Opened 0 ].

Definition ask (question request_id : string) : option json :=
  Some (JObj [("result", JObj [("question", JStr question);
                               ("request_id", JStr request_id)])]).

Definition status_is (s : string) : reply :=
  Response true (Some (JObj [("id", JStr "t1"); ("status", JStr s)])).

(** The user comes back to the prompt and sends blanks. *)
Definition blank_prompt : world :=
  step started (UserTypesPrompt (Str.of_bytes [32; 9; 32; 10])).

(** The connection is lost and the poll of [onerror] finds the task cancelled. *)
Definition lost_then_cancelled : world :=
  run started [ TransportError 0 false "10:00"; Settles 3 (status_is "cancelled") ].

(** The server pushes its [error] frame. *)
Definition error_pushed : world :=
  step started (Frame 0 "error" (Some (JObj [("message", JStr "boom")])) "10:00").

(** Two questions are pending; the user skips the one the modal shows. *)
Definition two_questions : world :=
  run started [ Frame 0 "ask_human" (ask "Proceed?" "r1") "10:00";
                Frame 0 "ask_human" (ask "Overwrite?" "r2") "10:05" ].

Definition second_skipped : world :=
  run two_questions [ UserClicks Skip; Settles 3 (Response true None) ].

(** An answer is sent and the server refuses it. *)
Definition answer_refused : world :=
  run started [ Frame 0 "ask_human" (ask "Proceed?" "r1") "10:00";
                UserTypesAnswer "yes";
                UserClicks Respond;
                Settles 3 (Response false (Some (JObj [("detail", JStr "Server busy")]))) ].

(** An [ask_human] frame whose [result] is [null]. *)
Definition null_question : world :=
  step started (Frame 0 "ask_human" (Some (JObj [("result", JNull)])) "10:00").

(** Three connections lost in a row, the task still running. *)
Definition third_retry_scheduled : world :=
  run started [ TransportError 0 false "10:00"; Settles 3 (status_is "running"); Fires 0;
                TransportError 1 false "10:05"; Settles 4 (status_is "running"); Fires 0;
                TransportError 2 false "10:10"; Settles 5 (status_is "running") ].

(** ** Measures on a session *)

Fixpoint count {A} (p : A -> bool) (l : list A) : nat :=
  match l with
  | [] => 0
  | x :: rest => (if p x then 1 else 0) + count p rest
  end.

Definition of_session (sid : nat) (es : eventSource) : bool :=
  Nat.eqb (es_session es) sid.

Definition is_live (sid : nat) (es : eventSource) : bool :=
  of_session sid es && negb (readyState_eqb (es_ready es) CLOSED).

Definition is_poll (sid : nat) (f : fetch) : bool :=
  match f with GetStatusOnError s => Nat.eqb s sid | _ => false end.

Definition is_reconnect (sid : nat) (t : timer) : bool :=
  match t with Reconnect s => Nat.eqb s sid | _ => false end.

(** The EventSources the session has constructed so far. *)
Definition opened (sid : nat) (w : world) : nat := count (of_session sid) (sources w).

(** Those of them that are not closed. *)
Definition live (sid : nat) (w : world) : nat := count (is_live sid) (sources w).

(** The polls of its [onerror] that have not settled. *)
Definition polling (sid : nat) (w : world) : nat := count (is_poll sid) (inflight w).

(** Its [setTimeout(connect, retryDelay)] that have not fired. *)
Definition reconnecting (sid : nat) (w : world) : nat := count (is_reconnect sid) (timers w).

Definition retries (sid : nat) (w : world) : nat :=
  from_option retryCount 0 (sessions w !! sid).

Definition ready (ch : nat) (w : world) : option readyState :=
  es_ready <$> sources w !! ch.

Definition is_fetch (e : effect) : bool :=
  match e with Fetch _ => true | _ => false end.


Definition b2n (b : bool) : nat := if b then 1 else 0.

(** An EventSource later on: it is of the same session, and once
    closed it stays closed. *)
Definition src_le (es es' : eventSource) : Prop :=
  es_session es' = es_session es /\ (es_ready es = CLOSED -> es_ready es' = CLOSED).

(** A handler that takes no part in the retry logic: it may close
    EventSources, and leaves [retryCount], the polls of [onerror] and
    the reconnect timers alone. *)
Record quiet (w w' : world) : Prop := {
  quiet_sessions : retryCount <$> sessions w' = retryCount <$> sessions w;
  quiet_sources : Forall2 src_le (sources w) (sources w');
  quiet_inflight : forall sid, polling sid w' = polling sid w;
  quiet_timers : forall sid, reconnecting sid w' = reconnecting sid w
}.

(** What one handler does to the measures of a session: nothing but
    closing EventSources; one poll of [onerror] settles without a
    retry; [onerror] closes a live EventSource and polls; a poll
    settles into a retry; a reconnect timer fires. *)
Definition delta (sid : nat) (w w' : world) : Prop :=
  (opened sid w' = opened sid w /\ live sid w' <= live sid w /\
   polling sid w' = polling sid w /\ reconnecting sid w' = reconnecting sid w /\
   retries sid w' = retries sid w)
  \/ (opened sid w' = opened sid w /\ live sid w' <= live sid w /\
      polling sid w' + 1 = polling sid w /\ reconnecting sid w' = reconnecting sid w /\
      retries sid w' = retries sid w)
  \/ (sid < length (sessions w) /\
      opened sid w' = opened sid w /\ live sid w' + 1 <= live sid w /\
      polling sid w' = polling sid w + 1 /\ reconnecting sid w' = reconnecting sid w /\
      retries sid w' = retries sid w)
  \/ (sid < length (sessions w) /\
      opened sid w' = opened sid w /\ live sid w' <= live sid w /\
      polling sid w' + 1 = polling sid w /\ reconnecting sid w' = reconnecting sid w + 1 /\
      retries sid w' = retries sid w + 1 /\ retries sid w < maxRetries)
  \/ (sid < length (sessions w) /\
      opened sid w' = opened sid w + 1 /\ live sid w' <= live sid w + 1 /\
      polling sid w' = polling sid w /\ reconnecting sid w' + 1 = reconnecting sid w /\
      retries sid w' = retries sid w).

(** [setupSSE] has run: the session is new and has its first EventSource. *)
Definition born (sid : nat) (w w' : world) : Prop :=
  opened sid w' = opened sid w + 1 /\ live sid w' <= live sid w + 1 /\
  polling sid w' = polling sid w /\ reconnecting sid w' = reconnecting sid w /\
  retries sid w' = 0.

(** The invariant of the reconnection logic. *)
Record inv (w : world) : Prop := {
  inv_fresh : forall sid, length (sessions w) <= sid ->
      opened sid w = 0 /\ polling sid w = 0 /\ reconnecting sid w = 0;
  inv_retry : forall sid, retries sid w <= maxRetries;
  inv_tokens : forall sid, live sid w + polling sid w + reconnecting sid w <= 1;
  inv_budget : forall sid, sid < length (sessions w) ->
      opened sid w + reconnecting sid w = S (retries sid w)
}.

Definition reachable (w : world) : Prop :=
  exists bar btn es, w = run (init bar btn) es.

Definition quiet_at (sid : nat) (w w' : world) : Prop :=
  opened sid w' = opened sid w /\ live sid w' <= live sid w /\
  polling sid w' = polling sid w /\ reconnecting sid w' = reconnecting sid w /\
  retries sid w' = retries sid w.

(** Every EventSource is still there later on, of the same session,
    and closed if it was. *)
Definition ages (w w' : world) : Prop :=
  forall ch es, sources w !! ch = Some es ->
    exists es', sources w' !! ch = Some es' /\ src_le es es'.

(** One handler: the sessions are the same and each has made one of
    the moves of [delta], or [setupSSE] has added a session. *)
Definition evolves (w w' : world) : Prop :=
  ages w w' /\
  ((length (sessions w') = length (sessions w) /\ forall sid, delta sid w w') \/
   (length (sessions w') = S (length (sessions w)) /\
    forall sid, if decide (sid = length (sessions w)) then born sid w w'
                else quiet_at sid w w')).

(** No reconnect is scheduled for a session that does not exist. *)
Definition scheduled_exist (w : world) : Prop :=
  forall sid, length (sessions w) <= sid -> reconnecting sid w = 0.
Definition terminal_names : list string := ["complete"; "error"; "cancelled"].

(** The request id as [createHumanRequestElement] reads it off the payload. *)
Definition request_id_of (data : json) : outcome value :=
  result ← get (Val data) "result";
  if typeof_object result then get result "request_id" else Ok (Val JNull).

(** The third reconnect has fired. *)
Definition budget_spent : world := step third_retry_scheduled (Fires 0).

(** The same, and the request is lost on the network. *)
Definition answer_lost : world :=
  run started [ Frame 0 "ask_human" (ask "Proceed?" "r1") "10:00";
                UserTypesAnswer "yes";
                UserClicks Respond;
                Settles 3 NetworkError ].

(** ** Further scenarios and models *)

(** What a reply to POST /tasks lacks when [createTask] cannot go on:
    the request failed, the reply is not 2xx, its body is not JSON, or
    the body has no truthy [task_id]. *)
Definition no_task_id (r : reply) : Prop :=
  match r with
  | Response true (Some data) =>
      forall t, get (Val data) "task_id" = Ok t -> truthy t = false
  | _ => True
  end.

(** A status poll that fails before [updateTaskStatus]: the request
    is lost, or the body of the reply is not JSON. *)
Definition is_poll_failure (r : reply) : Prop :=
  match r with
  | NetworkError | Response _ None => True
  | Response _ (Some _) => False
  end.




(** The first question is asked and the user has typed an answer. *)
Definition answer_typed : world :=
  run started [ Frame 0 "ask_human" (ask "Proceed?" "r1") "10:00"; UserTypesAnswer " yes " ].


(** A prompt is submitted and its POST is in flight. *)
Definition submitted : world :=
  run (init true true) [ UserTypesPrompt "Summarize file X"; UserSubmitsPrompt ].



(** The step of the first question shows the answer. *)
Definition answer_logged : world :=
  set_container
    (fun _ => [StepContainer
                 [StepAsk "10:00" (Val (JStr "Proceed?"))
                    ("User response: " +:+ dquote +:+ "yes" +:+ dquote)]])
    answer_typed.

(** The heartbeat timer of the EventSource [ch] is not armed. *)
Definition silent (ch : nat) (l : list eventSource) : Prop :=
  forall es, l !! ch = Some es -> es_heartbeat es = false.

(** ** Cancelling a task *)

(** What [document.querySelector] finds for the attribute selector on
    [data-task-id] that [cancelTask] builds: the selector may not parse
    (the task id is put between its quotes as it is), no element may
    carry the attribute, or one does; of that element only a
    descendant of class [task-status] would be rewritten, and no other
    state read here depends on it. *)
Inductive task_element :=
| BadSelector
| NoElement
| Element.

Inductive cancel_effect :=
| Confirm                              (* confirm('Are you sure ...') *)
| PostCancel (taskId : json)           (* POST /tasks/<taskId>/cancel *)
| AlertNoTask                          (* alert('No active task to cancel') *)
| AlertCancelError (detail : string)   (* alert(`Task cancellation error: ...`) *)
| AlertNetworkError (e : error)        (* alert(`Network error: ${error.message}`) *)
| LogCancelled (data : json)           (* console.log('Task cancelled successfully:', data) *)
| LogError (e : error).                (* console.error('Error cancelling task:', error) *)

(** The page with its cancel control: the requests of [cancelTask] in
    flight, and what [cancelTask] and [cancelCurrentTask] have shown. *)
Record page := {
  core : world;
  cancelling : list json;
  cancel_log : list cancel_effect
}.

Definition on_core (f : world -> world) (p : page) : page :=
  {| core := f (core p); cancelling := cancelling p; cancel_log := cancel_log p |}.

Definition note (e : cancel_effect) (p : page) : page :=
  {| core := core p; cancelling := cancelling p; cancel_log := cancel_log p ++ [e] |}.

Definition set_cancelling (f : list json -> list json) (p : page) : page :=
  {| core := core p; cancelling := f (cancelling p); cancel_log := cancel_log p |}.

(** [cancelTask(taskId)] up to its [await fetch(...)]; [confirmed] is
    the answer to [confirm]. *)
Definition cancelTask (confirmed : bool) (taskId : json) (p : page) : page :=
  let p := note Confirm p in
  if confirmed then note (PostCancel taskId) (set_cancelling (fun l => l ++ [taskId]) p)
  else p.

Definition cancelCurrentTask (confirmed : bool) (p : page) : page :=
  match currentTaskId (core p) with
  | Some taskId =>
      if truthy (Val taskId) then cancelTask confirmed taskId p else note AlertNoTask p
  | None => note AlertNoTask p
  end.

(** [cancelTask] after its [await fetch(...)]. *)
Definition cancel_settled (r : reply) (found : task_element) (p : page) : page :=
  let caught e p := note (AlertNetworkError e) (note (LogError e) p) in
  match r with
  | NetworkError | Response _ None => caught PlatformError p
  | Response true (Some data) =>
      let p := note (LogCancelled data) p in
      match found with
      | BadSelector => caught PlatformError p
      | NoElement => p
      | Element => on_core hideCancelButton p
      end
  | Response false (Some err) =>
      match get (Val err) "detail" with
      | Ok detail =>
          note (AlertCancelError (to_string (Js.or detail (Val (JStr "Unknown error"))))) p
      | Throw e => caught e p
      end
  end.

Inductive page_event :=
| Core (e : event)
| CancelClicked (confirmed : bool)
| CancelSettles (i : nat) (r : reply) (found : task_element).

Definition page_step (p : page) (e : page_event) : page :=
  match e with
  | Core e => on_core (fun w => step w e) p
  | CancelClicked confirmed => cancelCurrentTask confirmed p
  | CancelSettles i r found =>
      match cancelling p !! i with
      | Some _ => cancel_settled r found (set_cancelling (delete i) p)
      | None => p
      end
  end.




(** What the stream of a page consists of. *)
Definition stream_state (w : world) :=
  (sessions w, sources w, currentEventSource w, currentTaskId w, inflight w, timers w,
   container w).


(** ** The authorization cookie *)

Module Text.

(** [s.split(sep)] for a one-character [sep]. *)
Fixpoint split (sep : Ascii.ascii) (s : string) : list string :=
  match s with
  | EmptyString => [EmptyString]
  | String c s' =>
      if Ascii.eqb c sep then EmptyString :: split sep s'
      else
        match split sep s' with
        | l :: ls => String c l :: ls
        | [] => [String c EmptyString]
        end
  end.

Definition has (c : Ascii.ascii) (s : string) : bool :=
  existsb (Ascii.eqb c) (String.list_ascii_of_string s).

End Text.

(** [isAuthorized()], of [document.cookie]. *)
Definition isAuthorized (cookie : string) : bool :=
  existsb (String.prefix "auth=") (map Str.trim (Text.split ";" cookie)).

(** ** The chat client: reading the streamed reply *)

Section Chat.

(** [JSON.parse]: the value of a JSON text, nothing for any other text. *)
Variable JSON_parse : string -> option json.

(** The loop of [handleSendMessage] over the chunks of the reply:
    the buffer, and the texts of the bot messages added so far. *)
Record chat := {
  buffer : string;
  messages : list value
}.

(** The body of [for (let line of lines)]. *)
Definition on_line (line : string) (msgs : list value) : list value :=
  let line := Str.trim line in
  if String.eqb line "" then msgs
  else if String.prefix "data:" line then
    match JSON_parse (Str.trim (Str.drop (String.length "data:") line)) with
    | None => msgs
    | Some data =>
        if truthy (Val data) then
          match get (Val data) "content" with
          | Ok content => if truthy content then msgs ++ [content] else msgs
          | Throw _ => msgs
          end
        else msgs
    end
  else msgs.

(** One turn of the loop, for the text [chunk] the decoder gives. *)
Definition read (chunk : string) (c : chat) : chat :=
  let lines := Text.split "010" (buffer c +:+ chunk) in
  {| buffer := List.last lines EmptyString;
     messages := fold_left (fun msgs line => on_line line msgs) (removelast lines)
                           (messages c) |}.

Definition stream (chunks : list string) (c : chat) : chat :=
  fold_left (fun c chunk => read chunk c) chunks c.

End Chat.

(** A parser for the witnesses: it knows the JSON text of one object. *)
Definition parse_hello (s : string) : option json :=
  if String.eqb s ("{" +:+ dquote +:+ "content" +:+ dquote +:+ ":" +:+ dquote +:+ "hi"
                     +:+ dquote +:+ "}")
  then Some (JObj [("content", JStr "hi")])
  else None.

Definition hello_line : string :=
  "data: {" +:+ dquote +:+ "content" +:+ dquote +:+ ":" +:+ dquote +:+ "hi" +:+ dquote
    +:+ "}" +:+ Str.LF.

(** ** Escape *)





(** * Properties *)

(** ** createTask *)

(** C10. When the prompt is empty once trimmed, [createTask] makes no
    request (no fetch is issued and none is added to those in flight)
    and leaves the open EventSource, [currentEventSource] and
    [currentTaskId] as they were: it only alerts and focuses the input. *)
Theorem createTask_blank_prompt (w : world) :
  Str.trim (promptInput w) = "" ->
  inflight (step w UserSubmitsPrompt) = inflight w /\
  trace (step w UserSubmitsPrompt) =
    trace w ++ [Alert "Please enter a valid prompt"; Focus] /\
  currentEventSource (step w UserSubmitsPrompt) = currentEventSource w /\
  currentTaskId (step w UserSubmitsPrompt) = currentTaskId w /\
  sources (step w UserSubmitsPrompt) = sources w /\
  sessions (step w UserSubmitsPrompt) = sessions w.
Proof.
  intros Hblank. cbn [step]. unfold createTask. rewrite Hblank. cbn.
  rewrite <- app_assoc. repeat split; reflexivity.
Qed.

Lemma createTask_blank_prompt_witness :
  Str.trim (promptInput blank_prompt) = "" /\
  currentEventSource (step blank_prompt UserSubmitsPrompt) = Some 0 /\
  ready 0 (step blank_prompt UserSubmitsPrompt) = Some OPEN.
Proof.
  split; [reflexivity|].
  destruct (createTask_blank_prompt blank_prompt eq_refl) as (_ & _ & Hc & _ & Hs & _).
  unfold ready. rewrite Hc, Hs. split; reflexivity.
Defined.

(** A prompt made of spaces is empty once trimmed. *)
Lemma strip_space (s : string) :
  Str.strip_one Str.white_space (String " " s) = Some s.
Proof. destruct s; reflexivity. Qed.

Lemma trim_spaces (n : nat) :
  Str.trim (String.string_of_list_ascii (replicate n " "%char)) = "".
Proof.
  assert (Hs : forall n fuel, n <= fuel ->
            Str.strip_all fuel Str.white_space
              (String.string_of_list_ascii (replicate n " "%char)) = "").
  { clear n. induction n as [|n IH]; intros fuel Hle.
    - destruct fuel; reflexivity.
    - destruct fuel as [|fuel]; [lia|].
      cbn [replicate String.string_of_list_ascii Str.strip_all].
      rewrite strip_space. apply IH. lia. }
  unfold Str.trim, Str.trimStart. rewrite Hs.
  - reflexivity.
  - clear Hs. induction n; cbn; lia.
Qed.

(** ** Event Dispatcher *)






(** For a type outside the tables that is no property of
    [Object.prototype] either, both look-ups give the fallback. *)
Lemma fallback_icon_and_label (eventType : string) :
  assoc eventType icons = None ->
  assoc eventType labels = None ->
  existsb (String.eqb eventType) object_prototype = false ->
  getEventIcon eventType = Text "ℹ️" /\ getEventLabel eventType = Text "Info".
Proof.
  intros Hi Hl Hp. unfold getEventIcon, getEventLabel, lookup_or.
  rewrite Hi, Hl, Hp. split; reflexivity.
Qed.

(** ** Status Reconciler *)

(** [connect] polls at once. *)
Lemma connect_polls sid ss w :
  sessions w !! sid = Some ss ->
  inflight (connect sid w) = inflight w ++ [GetStatus Initial (taskId ss)].
Proof. intros H. unfold connect. rewrite H. reflexivity. Qed.

(** [handleEvent] polls after the step it could build. *)
Lemma handleEvent_polls ch task data type now w content st :
  formatStepContent (Val data) type = Ok content ->
  createStepElement type content now = Ok st ->
  inflight (handleEvent ch task (Some data) type now w) =
    inflight w ++ [GetStatus AfterStep task].
Proof.
  intros Hc Hs. unfold handleEvent. rewrite Hc. cbn [mbind outcome_bind Js.bind].
  rewrite Hs. reflexivity.
Qed.

(** So do the listeners of [complete] and [cancelled]. *)
Lemma on_complete_polls ch sid task data result w :
  get (Val data) "result" = Ok result ->
  inflight (on_complete ch sid task (Some data) w) = inflight w ++ [GetStatus Final task].
Proof. intros H. unfold on_complete. rewrite H. reflexivity. Qed.

Lemma on_cancelled_polls ch task data w :
  inflight (on_cancelled ch task (Some data) w) = inflight w ++ [GetStatus Final task].
Proof. reflexivity. Qed.

(** C4 fails on the [error] frame: the listener of [error] renders the
    message and closes the EventSource without fetching the status
    ([onerror], which runs after it, finds the EventSource closed and
    returns).  No request goes out and the status bar is never told
    that the task failed. *)
Theorem error_frame_issues_no_poll :
  ready 0 started = Some OPEN /\
  inflight error_pushed = inflight started /\
  trace error_pushed = trace started ++ [Close 0] /\
  container error_pushed = [Loading; ErrorBox (Val (JStr "boom"))] /\
  statusBar error_pushed = Some StatusUntouched.
Proof. repeat apply conj; vm_compute; reflexivity. Qed.

(** ** Reconnection Policy: the poll of onerror *)

(** C1 fails on the status [cancelled]: [onerror] tests for
    [completed] and [failed] only, so a task the poll reports as
    cancelled is retried like a running one.  [retryCount] goes from 0
    to 1, a reconnect is scheduled, and when it fires a second
    EventSource is opened for the task. *)
Theorem onerror_poll_cancelled_retries :
  retries 0 started = 0 /\
  retries 0 lost_then_cancelled = 1 /\
  timers lost_then_cancelled = [Reconnect 0] /\
  container lost_then_cancelled = [Loading; Warning 1] /\
  opened 0 (step lost_then_cancelled (Fires 0)) = 2.
Proof. repeat apply conj; vm_compute; reflexivity. Qed.

(** ** Counting *)

Lemma count_app {A} (p : A -> bool) l1 l2 : count p (l1 ++ l2) = count p l1 + count p l2.
Proof. induction l1 as [|x l1 IH]; cbn; [reflexivity|]. rewrite IH. lia. Qed.

Lemma count_delete {A} (p : A -> bool) l i x :
  l !! i = Some x -> count p (delete i l) + b2n (p x) = count p l.
Proof.
  intros H. rewrite <- (take_drop_middle l i x H) at 2.
  rewrite delete_take_drop, !count_app. cbn. unfold b2n. lia.
Qed.

Lemma count_alter {A} (p : A -> bool) (f : A -> A) l i x :
  l !! i = Some x -> count p (alter f i l) + b2n (p x) = count p l + b2n (p (f x)).
Proof.
  revert i. induction l as [|y l IH]; intros [|i] H; try discriminate.
  - injection H as ->. cbn. unfold b2n. lia.
  - cbn in *. specialize (IH i H). lia.
Qed.

Lemma alter_none {A} (f : A -> A) (l : list A) i :
  l !! i = None -> alter f i l = l.
Proof.
  revert i. induction l as [|y l IH]; intros [|i] H; try discriminate; try reflexivity.
  cbn in *. f_equal. apply IH, H.
Qed.

Lemma count_alter_same {A} (p : A -> bool) (f : A -> A) l i :
  (forall x, p (f x) = p x) -> count p (alter f i l) = count p l.
Proof.
  intros Hf. destruct (l !! i) as [x|] eqn:H.
  - pose proof (count_alter p f l i x H) as E. rewrite Hf in E. lia.
  - rewrite alter_none by exact H. reflexivity.
Qed.

Lemma count_zero {A} (p : A -> bool) l x :
  count p l = 0 -> x ∈ l -> p x = false.
Proof.
  induction l as [|y l IH]; intros Hc Hin.
  - apply elem_of_nil in Hin. contradiction.
  - cbn in Hc. apply elem_of_cons in Hin as [->|Hin].
    + destruct (p y); [discriminate|reflexivity].
    + apply IH; [|exact Hin]. destruct (p y); [discriminate|exact Hc].
Qed.

Lemma count_lookup_pos {A} (p : A -> bool) l i x :
  l !! i = Some x -> p x = true -> 0 < count p l.
Proof.
  intros H Hp. pose proof (count_delete p l i x H) as E.
  rewrite Hp in E. cbn in E. lia.
Qed.

(** ** Sources over time *)

Lemma src_le_refl es : src_le es es.
Proof. split; auto. Qed.

Lemma src_le_trans a b c : src_le a b -> src_le b c -> src_le a c.
Proof. intros [H1 H2] [H3 H4]. split; [congruence|auto]. Qed.

Lemma Forall2_src_le_refl l : Forall2 src_le l l.
Proof. induction l; constructor; auto using src_le_refl. Qed.

Lemma Forall2_src_le_trans l1 l2 l3 :
  Forall2 src_le l1 l2 -> Forall2 src_le l2 l3 -> Forall2 src_le l1 l3.
Proof.
  intros H. revert l3. induction H as [|a b l1 l2 Hab H IH]; intros l3 H3.
  - inversion H3. constructor.
  - inversion H3 as [|? c ? l3' Hbc H3']; subst. constructor.
    + eapply src_le_trans; eassumption.
    + apply IH, H3'.
Qed.

Lemma src_le_counts sid l l' :
  Forall2 src_le l l' ->
  count (of_session sid) l' = count (of_session sid) l /\
  count (is_live sid) l' <= count (is_live sid) l.
Proof.
  induction 1 as [|a b l l' [Hs Hc] H [IH1 IH2]]; cbn; [lia|].
  unfold is_live, of_session in *. rewrite Hs, IH1. split; [reflexivity|].
  destruct (Nat.eqb (es_session a) sid); cbn; [|lia].
  destruct (es_ready a) eqn:Ha; cbn.
  - destruct (negb (readyState_eqb (es_ready b) CLOSED)); lia.
  - destruct (negb (readyState_eqb (es_ready b) CLOSED)); lia.
  - rewrite Hc by reflexivity. cbn. lia.
Qed.

Lemma live_le_opened sid w : live sid w <= opened sid w.
Proof.
  unfold live, opened. induction (sources w) as [|es l IH]; cbn; [lia|].
  unfold is_live at 1.
  destruct (of_session sid es), (negb (readyState_eqb (es_ready es) CLOSED)); cbn; lia.
Qed.

(** ** Quiet handlers *)

Lemma quiet_refl w : quiet w w.
Proof. split; auto using Forall2_src_le_refl. Qed.

Lemma quiet_trans w1 w2 w3 : quiet w1 w2 -> quiet w2 w3 -> quiet w1 w3.
Proof.
  intros [S1 R1 P1 T1] [S2 R2 P2 T2]. split.
  - congruence.
  - eapply Forall2_src_le_trans; eassumption.
  - intros sid. rewrite P2. apply P1.
  - intros sid. rewrite T2. apply T1.
Qed.

Lemma quiet_delta sid w w' : quiet w w' -> delta sid w w'.
Proof.
  intros [S R P T]. left.
  destruct (src_le_counts sid _ _ R) as [Ho Hl].
  repeat split; auto.
  unfold retries.
  assert (E : retryCount <$> sessions w' !! sid = retryCount <$> sessions w !! sid)
    by (rewrite <- !list_lookup_fmap; congruence).
  destruct (sessions w' !! sid), (sessions w !! sid); cbn in *; congruence.
Qed.

Lemma quiet_length w w' : quiet w w' -> length (sessions w') = length (sessions w).
Proof.
  intros [S _ _ _]. rewrite <- (length_fmap retryCount (sessions w')), S.
  apply length_fmap.
Qed.

(** A handler that touches neither the sessions nor the sources, the
    fetches in flight and the timers. *)
Ltac quiet_neutral :=
  lazymatch goal with
  | |- quiet ?w (?f ?x) -> _ => fail
  | |- quiet ?w (_ ?x) =>
      let H := fresh "H" in
      cut (quiet w x);
      [ intros H; destruct H as [? ? ? ?]; split; assumption | ]
  end.

Lemma quiet_close w x ch : quiet w x -> quiet w (close ch x).
Proof.
  intros [S R P T]. split; try assumption.
  cbn. apply Forall2_alter_r; [assumption|].
  intros a b _ _ [Hs Hc]. split; cbn; auto.
Qed.

Lemma quiet_clearInterval w x ch : quiet w x -> quiet w (clearInterval ch x).
Proof.
  intros [S R P T]. split; try assumption.
  cbn. apply Forall2_alter_r; [assumption|].
  intros a b _ _ [Hs Hc]. split; cbn; auto.
Qed.

Lemma quiet_do_fetch w x f :
  (forall sid, is_poll sid f = false) -> quiet w x -> quiet w (do_fetch f x).
Proof.
  intros Hf [S R P T]. split; try assumption.
  intros sid. unfold polling. cbn. rewrite count_app. cbn. rewrite Hf.
  specialize (P sid). unfold polling in P. lia.
Qed.

Lemma quiet_setTimeout w x t :
  (forall sid, is_reconnect sid t = false) -> quiet w x -> quiet w (setTimeout t x).
Proof.
  intros Hf [S R P T]. split; try assumption.
  intros sid. unfold reconnecting. cbn. rewrite count_app. cbn. rewrite Hf.
  specialize (T sid). unfold reconnecting in T. lia.
Qed.

Lemma quiet_set_lastResultContent w x v sid :
  quiet w x -> quiet w (set_sessions (alter (set_lastResultContent v) sid) x).
Proof.
  intros [S R P T]. split; try assumption.
  cbn. rewrite <- S. apply list_eq. intros i.
  rewrite !list_lookup_fmap, list_lookup_alter.
  destruct (decide (sid = i)) as [->|]; [|reflexivity].
  destruct (sessions x !! i); reflexivity.
Qed.

Lemma quiet_with_ready w x ch es r :
  sources x !! ch = Some es -> es_ready es <> CLOSED ->
  quiet w x -> quiet w (set_sources (alter (with_ready r) ch) x).
Proof.
  intros Hx Hr [S R P T]. split; try assumption.
  cbn. apply Forall2_alter_r; [assumption|].
  intros a b _ Hb [Hs Hc]. split; cbn; [assumption|].
  intros Ha. rewrite Hx in Hb. injection Hb as <-. elim Hr. auto.
Qed.

Ltac quiet_step :=
  first
    [ assumption
    | apply quiet_refl
    | apply quiet_close
    | apply quiet_clearInterval
    | apply quiet_do_fetch; [intros ?; reflexivity|]
    | apply quiet_setTimeout; [intros ?; reflexivity|]
    | apply quiet_set_lastResultContent
    | quiet_neutral ].

Ltac quiet_tac := cbv beta zeta; repeat first [ quiet_step | case_match ].

Lemma quiet_close_current w x : quiet w x -> quiet w (close_current x).
Proof. intros H. unfold close_current. quiet_tac. Qed.

Lemma quiet_updateTaskStatus w x task x' :
  quiet w x -> updateTaskStatus task x = Ok x' -> quiet w x'.
Proof.
  intros H. unfold updateTaskStatus.
  destruct (statusBar x); [|intros ?; simplify_eq; exact H].
  destruct (get task "status") as [status|]; [|discriminate].
  cbn [mbind outcome_bind Js.bind].
  destruct (get task "error") as [e|]; cbn [mbind outcome_bind Js.bind];
    repeat case_match; try discriminate; intros ?; simplify_eq;
    repeat first [ apply quiet_close_current | quiet_step ].
Qed.

Lemma quiet_show_step_area w x : quiet w x -> quiet w (show_step_area x).
Proof. intros H. unfold show_step_area. quiet_tac. Qed.

Lemma quiet_handleEvent w x ch task data type now :
  quiet w x -> quiet w (handleEvent ch task data type now x).
Proof.
  intros H. unfold handleEvent. cbv beta zeta.
  destruct data as [data|]; [|quiet_tac].
  case_match; repeat first [ apply quiet_show_step_area | quiet_step ].
Qed.

Lemma quiet_showAskHumanModal w x q rid task :
  quiet w x -> quiet w (showAskHumanModal q rid task x).
Proof. intros H. unfold showAskHumanModal. quiet_tac. Qed.

Lemma quiet_createHumanRequestElement w x data task now st x' :
  quiet w x -> createHumanRequestElement data task now x = Ok (st, x') -> quiet w x'.
Proof.
  intros H. unfold createHumanRequestElement.
  destruct (get data "result") as [result|]; [|discriminate].
  cbn [mbind outcome_bind Js.bind].
  destruct (typeof_object result).
  - destruct (get result "question") as [question|]; [|discriminate].
    cbn [mbind outcome_bind Js.bind].
    destruct (get result "request_id") as [requestId|]; [|discriminate].
    cbn [mbind outcome_bind Js.bind].
    repeat case_match; intros ?; simplify_eq;
      repeat first [ apply quiet_showAskHumanModal | quiet_step ].
  - cbn [mbind outcome_bind Js.bind].
    repeat case_match; intros ?; simplify_eq;
      repeat first [ apply quiet_showAskHumanModal | quiet_step ].
Qed.

Lemma quiet_on_ask_human w x ch task data now :
  quiet w x -> quiet w (on_ask_human ch task data now x).
Proof.
  intros H. unfold on_ask_human. cbv beta zeta.
  destruct data as [data|]; [|quiet_tac].
  destruct (createHumanRequestElement _ _ _ _) as [[st x']|] eqn:E.
  - quiet_neutral. eapply quiet_createHumanRequestElement; [|exact E].
    apply quiet_show_step_area. quiet_tac.
  - repeat first [ apply quiet_show_step_area | quiet_step ].
Qed.

Lemma quiet_tear_down w x ch : quiet w x -> quiet w (tear_down ch x).
Proof. intros H. unfold tear_down. quiet_tac. Qed.

Lemma quiet_on_complete w x ch sid task data :
  quiet w x -> quiet w (on_complete ch sid task data x).
Proof.
  intros H. unfold on_complete. cbv beta zeta.
  repeat case_match; repeat first [ apply quiet_tear_down | quiet_step ].
Qed.

Lemma quiet_on_error_event w x ch data :
  quiet w x -> quiet w (on_error_event ch data x).
Proof.
  intros H. unfold on_error_event. cbv beta zeta.
  repeat case_match; repeat first [ apply quiet_tear_down | quiet_step ].
Qed.

Lemma quiet_on_cancelled w x ch task data :
  quiet w x -> quiet w (on_cancelled ch task data x).
Proof.
  intros H. unfold on_cancelled. cbv beta zeta.
  repeat case_match; repeat first [ apply quiet_tear_down | quiet_step ].
Qed.

Lemma quiet_createTask w : quiet w (createTask w).
Proof.
  unfold createTask. cbv beta zeta.
  case_match; repeat first [ apply quiet_close_current | quiet_step ].
Qed.

Lemma quiet_status_settled w x site r :
  quiet w x -> quiet w (status_settled site r x).
Proof.
  intros H. unfold status_settled. cbv beta zeta.
  repeat case_match; try (eapply quiet_updateTaskStatus; eassumption); quiet_tac.
Qed.

Lemma quiet_showModalError w x m : quiet w x -> quiet w (showModalError m x).
Proof. intros H. unfold showModalError. quiet_tac. Qed.

Lemma quiet_showModalLoading w x : quiet w x -> quiet w (showModalLoading x).
Proof. intros H. unfold showModalLoading. quiet_tac. Qed.

Lemma quiet_showModalSuccess w x m : quiet w x -> quiet w (showModalSuccess m x).
Proof. intros H. unfold showModalSuccess. quiet_tac. Qed.

Lemma quiet_updateLogElement w x rid response a x' :
  quiet w x -> updateLogElement rid response a x = Ok x' -> quiet w x'.
Proof.
  intros H. unfold updateLogElement.
  repeat case_match; try discriminate; intros ?; simplify_eq; quiet_tac.
Qed.

Lemma quiet_respond_settled w x rid response a r :
  quiet w x -> quiet w (respond_settled rid response a r x).
Proof.
  intros H. unfold respond_settled. cbv beta zeta.
  repeat case_match;
    repeat first
      [ apply quiet_showModalError
      | apply quiet_showModalSuccess
      | apply quiet_setTimeout; [intros ?; reflexivity|]
      | (eapply quiet_updateLogElement; [|eassumption])
      | quiet_step ].
Qed.

Lemma quiet_respondToHumanModal w x task rid id a :
  quiet w x -> quiet w (respondToHumanModal task rid id a x).
Proof.
  intros H. unfold respondToHumanModal. cbv beta zeta.
  case_match; repeat first
    [ apply quiet_showModalError | apply quiet_showModalLoading | quiet_step ].
Qed.

Lemma quiet_click w a : quiet w (click a w).
Proof.
  unfold click. repeat case_match;
    repeat first [ apply quiet_respondToHumanModal | quiet_step ].
Qed.

Lemma quiet_escape handlers confirms w x :
  quiet w x -> quiet w (escape handlers confirms x).
Proof.
  revert confirms x. induction handlers as [|[task rid] hs IH]; intros [|[|] cs] x H;
    cbn [escape]; try assumption.
  - apply IH, quiet_respondToHumanModal, H.
  - apply IH, H.
Qed.

Lemma quiet_type_answer w s : quiet w (type_answer s w).
Proof. unfold type_answer. quiet_tac. Qed.

Lemma quiet_closeAskHumanModal w x : quiet w x -> quiet w (closeAskHumanModal x).
Proof. intros H. unfold closeAskHumanModal. quiet_tac. Qed.

Lemma quiet_heartbeat w ch : quiet w (heartbeat ch w).
Proof. unfold heartbeat. quiet_tac. Qed.

Lemma quiet_announce w ch : quiet w (announce ch w).
Proof.
  unfold announce. destruct (sources w !! ch) as [es|] eqn:E; [|apply quiet_refl].
  destruct (es_ready es) eqn:R; cbn; try apply quiet_refl.
  eapply quiet_with_ready; [exact E| congruence | apply quiet_refl].
Qed.

(** ** The handlers of the retry logic *)

Ltac proj :=
  cbn [sessions sources inflight timers currentEventSource
       do_fetch setTimeout emit console_error close clearInterval append_node
       set_sessions set_sources set_inflight set_timers set_container
       set_currentEventSource set_currentTaskId set_promptInput loadHistory].

Lemma ages_refl w : ages w w.
Proof. intros ch es H. exists es. split; [exact H|apply src_le_refl]. Qed.

Lemma ages_trans w1 w2 w3 : ages w1 w2 -> ages w2 w3 -> ages w1 w3.
Proof.
  intros H1 H2 ch es H. destruct (H1 ch es H) as (e2 & E2 & L2).
  destruct (H2 ch e2 E2) as (e3 & E3 & L3). exists e3. split; [exact E3|].
  eapply src_le_trans; eassumption.
Qed.

Lemma quiet_ages w w' : quiet w w' -> ages w w'.
Proof.
  intros Q ch es H. eapply Forall2_lookup_l; [apply Q|exact H].
Qed.

Lemma ages_same w w' : sources w' = sources w -> ages w w'.
Proof. intros E ch es H. exists es. rewrite E. split; [exact H|apply src_le_refl]. Qed.

Lemma ages_app w w' ext : sources w' = sources w ++ ext -> ages w w'.
Proof.
  intros E ch es H. exists es. rewrite E. split; [|apply src_le_refl].
  apply lookup_app_l_Some, H.
Qed.

Lemma quiet_evolves w w' : quiet w w' -> evolves w w'.
Proof.
  intros Q. split; [apply quiet_ages, Q|]. left. split; [apply quiet_length, Q|].
  intros sid. apply quiet_delta, Q.
Qed.

Lemma retries_lt sid w : 0 < retries sid w -> sid < length (sessions w).
Proof.
  unfold retries. destruct (sessions w !! sid) eqn:E; cbn; [|lia].
  intros _. eapply lookup_lt_Some, E.
Qed.

Lemma quiet_measures sid w x :
  quiet w x ->
  opened sid x = opened sid w /\ live sid x <= live sid w /\
  polling sid x = polling sid w /\ reconnecting sid x = reconnecting sid w /\
  retries sid x = retries sid w.
Proof.
  intros Q. destruct (quiet_delta sid w x Q) as [H|[H|[H|[H|H]]]];
    pose proof (quiet_inflight _ _ Q sid); pose proof (quiet_timers _ _ Q sid); lia.
Qed.

(** [onerror] on an EventSource of the session [sid]. *)
Lemma onerror_evolves w x ch sid es :
  quiet w x -> sources w !! ch = Some es -> es_session es = sid ->
  sid < length (sessions w) ->
  evolves w (onerror ch sid x).
Proof.
  intros Q Hes Hsid Hlt.
  destruct (Forall2_lookup_l _ _ _ _ _ (quiet_sources _ _ Q) Hes) as (es' & Hes' & Hs' & Hc').
  unfold onerror. rewrite Hes'.
  destruct (readyState_eqb (es_ready es') CLOSED) eqn:Hc; [apply quiet_evolves, Q|].
  split.
  - eapply ages_trans;
      [apply quiet_ages, (quiet_close w (clearInterval ch x) ch), quiet_clearInterval, Q|].
    apply ages_same. reflexivity.
  - left. split; [proj; apply quiet_length, Q|].
    intros sid'. destruct (quiet_measures sid' w x Q) as (Ho & Hl & Hp & Hr & Hret).
    assert (Eo : opened sid' (do_fetch (GetStatusOnError sid)
                   (close ch (clearInterval ch (console_error "SSE connection error:" x))))
                 = opened sid' x).
    { unfold opened. proj. rewrite !count_alter_same; reflexivity. }
    assert (El : live sid' (do_fetch (GetStatusOnError sid)
                   (close ch (clearInterval ch (console_error "SSE connection error:" x))))
                 + b2n (Nat.eqb sid sid') = live sid' x).
    { unfold live. proj.
      pose proof (count_alter (is_live sid') closed
                    (alter disarmed ch (sources x)) ch (disarmed es')) as E1.
      rewrite list_lookup_alter_eq, Hes' in E1. specialize (E1 eq_refl).
      rewrite (count_alter_same (is_live sid') disarmed) in E1 by reflexivity.
      assert (L1 : is_live sid' (disarmed es') = Nat.eqb sid sid').
      { unfold is_live, of_session. cbn. rewrite Hc, Hs', Hsid. apply Bool.andb_true_r. }
      assert (L2 : is_live sid' (closed (disarmed es')) = false).
      { unfold is_live. cbn. apply Bool.andb_false_r. }
      rewrite L1, L2 in E1. cbn in E1. lia. }
    assert (Ep : polling sid' (do_fetch (GetStatusOnError sid)
                   (close ch (clearInterval ch (console_error "SSE connection error:" x))))
                 = polling sid' x + b2n (Nat.eqb sid sid')).
    { unfold polling. proj. rewrite count_app. cbn. unfold b2n. lia. }
    assert (Er : reconnecting sid' (do_fetch (GetStatusOnError sid)
                   (close ch (clearInterval ch (console_error "SSE connection error:" x))))
                 = reconnecting sid' x) by reflexivity.
    assert (Et : retries sid' (do_fetch (GetStatusOnError sid)
                   (close ch (clearInterval ch (console_error "SSE connection error:" x))))
                 = retries sid' x) by reflexivity.
    unfold delta. destruct (Nat.eqb_spec sid sid') as [<-|Hne]; unfold b2n in *; lia.
Qed.

Lemma quiet_then_evolves w x y : quiet w x -> evolves x y -> evolves w y.
Proof.
  intros Q [A H]. split; [eapply ages_trans; [apply quiet_ages, Q|exact A]|].
  pose proof (quiet_length _ _ Q) as Hlen.
  destruct H as [[Hl H]|[Hl H]]; [left|right]; (split; [lia|]); intros sid;
    specialize (H sid); destruct (quiet_measures sid w x Q) as (Ho & Hli & Hp & Hr & Ht).
  - destruct H as [H|[H|[H|[H|H]]]];
      [left|right; left|do 2 right; left|do 3 right; left|do 4 right]; lia.
  - rewrite <- Hlen. destruct (decide (sid = length (sessions x)));
      unfold born, quiet_at in *; lia.
Qed.

Lemma evolves_then_quiet w x y : evolves w x -> quiet x y -> evolves w y.
Proof.
  intros [A H] Q. split; [eapply ages_trans; [exact A|apply quiet_ages, Q]|].
  pose proof (quiet_length _ _ Q) as Hlen.
  destruct H as [[Hl H]|[Hl H]]; [left|right]; (split; [lia|]); intros sid;
    specialize (H sid); destruct (quiet_measures sid x y Q) as (Ho & Hli & Hp & Hr & Ht).
  - destruct H as [H|[H|[H|[H|H]]]];
      [left|right; left|do 2 right; left|do 3 right; left|do 4 right]; lia.
  - destruct (decide (sid = length (sessions w)));
      unfold born, quiet_at in *; lia.
Qed.

Lemma retries_alter_bump sid sid' (l : list session) w :
  sessions w = l ->
  sid < length l ->
  from_option retryCount 0 (alter bump_retryCount sid l !! sid') =
    retries sid' w + b2n (Nat.eqb sid sid').
Proof.
  intros <- Hlt. unfold retries. rewrite list_lookup_alter.
  destruct (decide (sid = sid')) as [<-|Hne].
  - rewrite Nat.eqb_refl. destruct (lookup_lt_is_Some_2 _ _ Hlt) as [ss ->]. cbn. lia.
  - apply Nat.eqb_neq in Hne. rewrite Hne. cbn. lia.
Qed.

(** [retry] does nothing to the measures, or it takes one retry of
    the budget and schedules the reconnect. *)
Lemma retry_effect notice sid x :
  quiet x (retry notice sid x) \/
  (sid < length (sessions x) /\ retries sid x < maxRetries /\
   length (sessions (retry notice sid x)) = length (sessions x) /\
   sources (retry notice sid x) = sources x /\
   inflight (retry notice sid x) = inflight x /\
   forall sid',
     reconnecting sid' (retry notice sid x) = reconnecting sid' x + b2n (Nat.eqb sid sid') /\
     retries sid' (retry notice sid x) = retries sid' x + b2n (Nat.eqb sid sid')).
Proof.
  unfold retry. destruct (sessions x !! sid) as [ss|] eqn:E; [|left; apply quiet_refl].
  destruct (Nat.ltb (retryCount ss) maxRetries) eqn:Hlt.
  - right. apply Nat.ltb_lt in Hlt. pose proof (lookup_lt_Some _ _ _ E) as Hsid.
    assert (Hr : retries sid x = retryCount ss) by (unfold retries; rewrite E; reflexivity).
    split; [exact Hsid|]. split; [lia|].
    destruct notice; proj; rewrite length_alter; repeat split; try reflexivity.
    + unfold reconnecting. proj. rewrite count_app. cbn. unfold b2n. lia.
    + unfold retries at 1. proj. apply retries_alter_bump; [reflexivity|exact Hsid].
    + unfold reconnecting. proj. rewrite count_app. cbn. unfold b2n. lia.
    + unfold retries at 1. proj. apply retries_alter_bump; [reflexivity|exact Hsid].
  - left. destruct notice; quiet_tac.
Qed.

Lemma quiet_delete_inflight w i f :
  inflight w !! i = Some f -> (forall sid, is_poll sid f = false) ->
  quiet w (set_inflight (delete i) w).
Proof.
  intros H Hf. split; try reflexivity; [apply Forall2_src_le_refl|].
  intros sid. unfold polling. proj.
  pose proof (count_delete (is_poll sid) _ _ _ H) as E. rewrite Hf in E. cbn in E. lia.
Qed.

Lemma quiet_delete_timers w i t :
  timers w !! i = Some t -> (forall sid, is_reconnect sid t = false) ->
  quiet w (set_timers (delete i) w).
Proof.
  intros H Hf. split; try reflexivity; [apply Forall2_src_le_refl|].
  intros sid. unfold reconnecting. proj.
  pose proof (count_delete (is_reconnect sid) _ _ _ H) as E. rewrite Hf in E. cbn in E. lia.
Qed.

(** The continuation of the poll of [onerror]: nothing but closing,
    or a retry. *)
Lemma onerror_settled_effect sid r x :
  quiet x (onerror_settled sid r x) \/
  (sid < length (sessions x) /\ retries sid x < maxRetries /\
   length (sessions (onerror_settled sid r x)) = length (sessions x) /\
   sources (onerror_settled sid r x) = sources x /\
   inflight (onerror_settled sid r x) = inflight x /\
   forall sid',
     reconnecting sid' (onerror_settled sid r x) =
       reconnecting sid' x + b2n (Nat.eqb sid sid') /\
     retries sid' (onerror_settled sid r x) = retries sid' x + b2n (Nat.eqb sid sid')).
Proof.
  assert (Hcaught : forall m,
    quiet x (retry false sid (console_error m x)) \/
    (sid < length (sessions x) /\ retries sid x < maxRetries /\
     length (sessions (retry false sid (console_error m x))) = length (sessions x) /\
     sources (retry false sid (console_error m x)) = sources x /\
     inflight (retry false sid (console_error m x)) = inflight x /\
     forall sid',
       reconnecting sid' (retry false sid (console_error m x)) =
         reconnecting sid' x + b2n (Nat.eqb sid sid') /\
       retries sid' (retry false sid (console_error m x)) =
         retries sid' x + b2n (Nat.eqb sid sid'))).
  { intros m. destruct (retry_effect false sid (console_error m x)) as [Q|H].
    - left. eapply quiet_trans; [|exact Q]. quiet_tac.
    - right. exact H. }
  unfold onerror_settled. cbv beta zeta.
  destruct r as [|ok [task|]]; try apply Hcaught.
  destruct (get (Val task) "status") as [status|] eqn:Hst; [|apply Hcaught].
  destruct (is_string status "completed" || is_string status "failed").
  - destruct (updateTaskStatus (Val task) x) as [x'|] eqn:U; [|apply Hcaught].
    pose proof (quiet_updateTaskStatus x x _ _ (quiet_refl x) U) as Q.
    destruct (is_string status "completed"); [left; quiet_tac|].
    destruct (get (Val task) "error") eqn:He; [left; quiet_tac|].
    destruct task; cbn in Hst, He; discriminate.
  - apply retry_effect.
Qed.

Lemma settle_poll_evolves w i sid r :
  inflight w !! i = Some (GetStatusOnError sid) ->
  evolves w (onerror_settled sid r (set_inflight (delete i) w)).
Proof.
  intros Hi. set (x := set_inflight (delete i) w).
  assert (Hp : forall sid', polling sid' x + b2n (Nat.eqb sid sid') = polling sid' w).
  { intros sid'. unfold polling, x. proj.
    pose proof (count_delete (is_poll sid') _ _ _ Hi) as E. cbn in E. exact E. }
  assert (Ax : ages w x) by (apply ages_same; reflexivity).
  assert (Xo : forall s, opened s x = opened s w) by reflexivity.
  assert (Xl : forall s, live s x = live s w) by reflexivity.
  assert (Xr : forall s, reconnecting s x = reconnecting s w) by reflexivity.
  assert (Xt : forall s, retries s x = retries s w) by reflexivity.
  assert (Xs : length (sessions x) = length (sessions w)) by reflexivity.
  destruct (onerror_settled_effect sid r x) as [Q|(Hsid & Hlt & Hlen & Hsrc & Hinf & H)].
  - split; [eapply ages_trans; [exact Ax|apply quiet_ages, Q]|].
    left. split; [rewrite (quiet_length _ _ Q); reflexivity|].
    intros sid'. destruct (quiet_measures sid' x _ Q) as (Ho & Hl & Hq & Hr & Ht).
    specialize (Hp sid'). specialize (Xo sid'). specialize (Xl sid').
    specialize (Xr sid'). specialize (Xt sid').
    destruct (Nat.eqb sid sid'); cbn [b2n] in Hp; [right; left|left]; lia.
  - split; [eapply ages_trans; [exact Ax|apply ages_same, Hsrc]|].
    left. split; [exact Hlen|].
    intros sid'. destruct (H sid') as [Hr Ht]. specialize (Hp sid').
    assert (Ho : opened sid' (onerror_settled sid r x) = opened sid' w)
      by (unfold opened; rewrite Hsrc; reflexivity).
    assert (Hl : live sid' (onerror_settled sid r x) = live sid' w)
      by (unfold live; rewrite Hsrc; reflexivity).
    assert (Hq : polling sid' (onerror_settled sid r x) = polling sid' x)
      by (unfold polling; rewrite Hinf; reflexivity).
    pose proof (Xt sid) as Xts. specialize (Xo sid'). specialize (Xl sid').
    specialize (Xr sid'). specialize (Xt sid').
    destruct (Nat.eqb_spec sid sid') as [Heq|Hne]; cbn [b2n] in Hp, Hr, Ht;
      try subst sid';
      [do 3 right; left|left]; lia.
Qed.

Lemma connect_effect sid ss x :
  sessions x !! sid = Some ss ->
  sessions (connect sid x) = sessions x /\
  sources (connect sid x) = sources x ++ [new_source sid] /\
  inflight (connect sid x) = inflight x ++ [GetStatus Initial (taskId ss)] /\
  timers (connect sid x) = timers x /\
  currentEventSource (connect sid x) = Some (length (sources x)).
Proof. intros E. unfold connect. rewrite E. repeat split; reflexivity. Qed.

Lemma fire_reconnect_evolves w i sid :
  scheduled_exist w ->
  timers w !! i = Some (Reconnect sid) ->
  evolves w (connect sid (set_timers (delete i) w)).
Proof.
  intros Hw Hi. set (x := set_timers (delete i) w).
  assert (Hr : forall sid', reconnecting sid' x + b2n (Nat.eqb sid sid') = reconnecting sid' w).
  { intros sid'. unfold reconnecting, x. proj.
    pose proof (count_delete (is_reconnect sid') _ _ _ Hi) as E. cbn in E. exact E. }
  assert (Hsid : sid < length (sessions w)).
  { destruct (Nat.lt_ge_cases sid (length (sessions w))) as [H|H]; [exact H|].
    specialize (Hw sid H). specialize (Hr sid). rewrite Nat.eqb_refl in Hr. cbn [b2n] in Hr. lia. }
  destruct (lookup_lt_is_Some_2 _ _ Hsid) as [ss Hss].
  destruct (connect_effect sid ss x Hss) as (Es & Er & Ei & Et & _).
  split; [apply (ages_app w _ [new_source sid]); exact Er|].
  left. split; [rewrite Es; reflexivity|].
  intros sid'. specialize (Hr sid').
  assert (Ho : opened sid' (connect sid x) = opened sid' w + b2n (Nat.eqb sid sid')).
  { unfold opened. rewrite Er, count_app. cbn. unfold b2n, of_session. cbn.
    change (sources x) with (sources w). lia. }
  assert (Hl : live sid' (connect sid x) = live sid' w + b2n (Nat.eqb sid sid')).
  { unfold live. rewrite Er, count_app. cbn. unfold b2n, is_live, of_session. cbn.
    change (sources x) with (sources w). rewrite Bool.andb_true_r. lia. }
  assert (Hp : polling sid' (connect sid x) = polling sid' w).
  { unfold polling. rewrite Ei, count_app. cbn. change (inflight x) with (inflight w). lia. }
  assert (Hq : reconnecting sid' (connect sid x) = reconnecting sid' x)
    by (unfold reconnecting; rewrite Et; reflexivity).
  assert (Ht : retries sid' (connect sid x) = retries sid' w)
    by (unfold retries; rewrite Es; reflexivity).
  destruct (Nat.eqb_spec sid sid') as [Heq|Hne]; cbn [b2n] in Hr, Ho, Hl;
    try subst sid';
    [do 4 right|left]; lia.
Qed.

Lemma setupSSE_effect task x :
  sessions (setupSSE task x) =
    sessions x ++ [{| taskId := task; retryCount := 0; lastResultContent := Val (JStr "") |}] /\
  sources (setupSSE task x) = sources x ++ [new_source (length (sessions x))] /\
  inflight (setupSSE task x) = inflight x ++ [GetStatus Initial task] /\
  timers (setupSSE task x) = timers x.
Proof.
  unfold setupSSE.
  set (ss := {| taskId := task; retryCount := 0; lastResultContent := Val (JStr "") |}).
  set (x1 := set_sessions _ x).
  assert (E : sessions x1 !! length (sessions x) = Some ss).
  { unfold x1. proj. apply list_lookup_middle. reflexivity. }
  destruct (connect_effect _ _ _ E) as (Es & Er & Ei & Et & _).
  rewrite Es, Er, Ei, Et. repeat split; reflexivity.
Qed.

Lemma setupSSE_evolves task x : evolves x (setupSSE task x).
Proof.
  destruct (setupSSE_effect task x) as (Es & Er & Ei & Et).
  split; [eapply ages_app; exact Er|].
  right. split; [rewrite Es, length_app; cbn; lia|].
  intros sid.
  assert (Ho : opened sid (setupSSE task x)
               = opened sid x + b2n (Nat.eqb (length (sessions x)) sid)).
  { unfold opened. rewrite Er, count_app. cbn. unfold b2n, of_session. cbn. lia. }
  assert (Hl : live sid (setupSSE task x)
               = live sid x + b2n (Nat.eqb (length (sessions x)) sid)).
  { unfold live. rewrite Er, count_app. cbn. unfold b2n, is_live, of_session. cbn.
    rewrite Bool.andb_true_r. lia. }
  assert (Hp : polling sid (setupSSE task x) = polling sid x).
  { unfold polling. rewrite Ei, count_app. cbn. lia. }
  assert (Hq : reconnecting sid (setupSSE task x) = reconnecting sid x)
    by (unfold reconnecting; rewrite Et; reflexivity).
  destruct (decide (sid = length (sessions x))) as [->|Hne].
  - rewrite Nat.eqb_refl in Ho, Hl. cbn [b2n] in Ho, Hl.
    unfold born. repeat split; try lia.
    unfold retries. rewrite Es, list_lookup_middle by reflexivity. reflexivity.
  - assert (Nat.eqb (length (sessions x)) sid = false) as Hf
      by (apply Nat.eqb_neq; congruence).
    rewrite Hf in Ho, Hl. cbn [b2n] in Ho, Hl.
    unfold quiet_at. repeat split; try lia.
    unfold retries. rewrite Es.
    destruct (Nat.lt_ge_cases sid (length (sessions x))) as [H|H].
    + rewrite lookup_app_l by exact H. reflexivity.
    + rewrite (lookup_ge_None_2 (sessions x)) by exact H.
      rewrite lookup_ge_None_2; [reflexivity|]. rewrite length_app. cbn. lia.
Qed.

Lemma createTask_settled_evolves r x : evolves x (createTask_settled r x).
Proof.
  unfold createTask_settled. cbv beta zeta.
  repeat case_match; try solve [apply quiet_evolves; quiet_tac].
  match goal with
  | |- evolves _ (_ (_ (setupSSE ?t ?y))) =>
      apply (evolves_then_quiet x (setupSSE t y));
      [ apply (quiet_then_evolves x y); [quiet_tac|apply setupSSE_evolves]
      | unfold loadHistory; quiet_tac ]
  end.
Qed.

Lemma closure_Some ch w sid task :
  closure ch w = Some (sid, task) ->
  exists es, sources w !! ch = Some es /\ es_session es = sid /\ sid < length (sessions w).
Proof.
  unfold closure. destruct (sources w !! ch) as [es|]; [|discriminate].
  cbn. destruct (sessions w !! es_session es) as [ss|] eqn:E; [|discriminate].
  cbn. intros [= <- <-]. exists es. repeat split. eapply lookup_lt_Some, E.
Qed.

Lemma listen_evolves w x ch sid task name data now es :
  quiet w x -> sources w !! ch = Some es -> es_session es = sid ->
  sid < length (sessions w) ->
  evolves w (listen ch sid task name data now x).
Proof.
  intros Q Hes Hsid Hlt. unfold listen.
  destruct (existsb _ _); [apply quiet_evolves, quiet_handleEvent, Q|].
  destruct (String.eqb name "ask_human"); [apply quiet_evolves, quiet_on_ask_human, Q|].
  destruct (String.eqb name "complete"); [apply quiet_evolves, quiet_on_complete, Q|].
  destruct (String.eqb name "error").
  { eapply onerror_evolves; eauto using quiet_on_error_event. }
  destruct (String.eqb name "cancelled"); [apply quiet_evolves, quiet_on_cancelled, Q|].
  apply quiet_evolves, Q.
Qed.

Lemma deliver_evolves w ch name data now : evolves w (deliver ch name data now w).
Proof.
  unfold deliver. destruct (sources w !! ch) as [es|] eqn:Hes;
    [|apply quiet_evolves, quiet_refl].
  destruct (closure ch w) as [[sid task]|] eqn:Hc; [|apply quiet_evolves, quiet_refl].
  destruct (readyState_eqb _ _); [|apply quiet_evolves, quiet_refl].
  destruct (closure_Some _ _ _ _ Hc) as (es' & Hes' & Hsid & Hlt).
  eapply listen_evolves; eauto using quiet_refl.
Qed.

Lemma transport_error_evolves w ch fatal now :
  evolves w (transport_error ch fatal now w).
Proof.
  unfold transport_error. destruct (sources w !! ch) as [es|] eqn:Hes;
    [|apply quiet_evolves, quiet_refl].
  destruct (closure ch w) as [[sid task]|] eqn:Hc; [|apply quiet_evolves, quiet_refl].
  destruct (readyState_eqb _ _) eqn:Hr; [apply quiet_evolves, quiet_refl|].
  destruct (closure_Some _ _ _ _ Hc) as (es' & Hes' & Hsid & Hlt).
  eapply listen_evolves; eauto.
  eapply quiet_with_ready; [exact Hes| |apply quiet_refl].
  intros E. rewrite E in Hr. discriminate.
Qed.

Lemma settle_evolves w i r : evolves w (settle i r w).
Proof.
  unfold settle. destruct (inflight w !! i) as [f|] eqn:Hi;
    [|apply quiet_evolves, quiet_refl].
  destruct f; cbv beta zeta.
  - apply quiet_evolves, quiet_status_settled.
    eapply quiet_delete_inflight; [exact Hi|reflexivity].
  - apply settle_poll_evolves, Hi.
  - eapply quiet_then_evolves; [|apply createTask_settled_evolves].
    eapply quiet_delete_inflight; [exact Hi|reflexivity].
  - apply quiet_evolves. eapply quiet_delete_inflight; [exact Hi|reflexivity].
  - apply quiet_evolves, quiet_respond_settled.
    eapply quiet_delete_inflight; [exact Hi|reflexivity].
Qed.

Lemma fire_evolves w i : scheduled_exist w -> evolves w (fire i w).
Proof.
  intros Hw. unfold fire. destruct (timers w !! i) as [t|] eqn:Hi;
    [|apply quiet_evolves, quiet_refl].
  destruct t; cbv beta zeta.
  - apply fire_reconnect_evolves; assumption.
  - apply quiet_evolves, quiet_closeAskHumanModal.
    eapply quiet_delete_timers; [exact Hi|reflexivity].
  - apply quiet_evolves.
    assert (Q : quiet w (set_timers (delete i) w))
      by (eapply quiet_delete_timers; [exact Hi|reflexivity]).
    repeat case_match; quiet_tac.
Qed.

(** Every handler is one move of the sessions. *)
Lemma step_evolves w e : scheduled_exist w -> evolves w (step w e).
Proof.
  intros Hw. destruct e; cbn [step].
  - apply quiet_evolves. quiet_tac.
  - apply quiet_evolves, quiet_createTask.
  - apply quiet_evolves, quiet_type_answer.
  - apply quiet_evolves, quiet_click.
  - apply quiet_evolves, quiet_escape, quiet_refl.
  - apply quiet_evolves, quiet_announce.
  - apply deliver_evolves.
  - apply transport_error_evolves.
  - apply settle_evolves.
  - apply fire_evolves, Hw.
  - apply quiet_evolves, quiet_heartbeat.
Qed.

(** ** The invariant *)

Lemma inv_scheduled w : inv w -> scheduled_exist w.
Proof. intros I sid H. apply (inv_fresh w I sid H). Qed.

Lemma inv_init bar btn : inv (init bar btn).
Proof.
  split; intros sid.
  - intros _. repeat split; reflexivity.
  - unfold retries, maxRetries. cbn [init sessions]. rewrite lookup_nil. cbn. lia.
  - cbn. lia.
  - cbn. lia.
Qed.

Lemma evolves_inv w w' : inv w -> evolves w w' -> inv w'.
Proof.
  intros [F R T B] [_ [[Hl H]|[Hl H]]].
  - split; intros sid; specialize (H sid); specialize (R sid); specialize (T sid);
      specialize (F sid); specialize (B sid);
      pose proof (live_le_opened sid w); rewrite ?Hl; unfold delta in H.
    + intros Hs. specialize (F Hs). lia.
    + lia.
    + lia.
    + intros Hs. specialize (B Hs). lia.
  - split; intros sid; specialize (H sid); specialize (R sid); specialize (T sid);
      specialize (F sid); specialize (B sid);
      pose proof (live_le_opened sid w); rewrite ?Hl;
      destruct (decide (sid = length (sessions w))) as [E|E];
      unfold born, quiet_at in H.
    + intros Hs. lia.
    + intros Hs. assert (Hge : length (sessions w) <= sid) by lia. specialize (F Hge). lia.
    + unfold maxRetries. lia.
    + lia.
    + assert (Hge : length (sessions w) <= sid) by lia. specialize (F Hge). lia.
    + lia.
    + intros _. assert (Hge : length (sessions w) <= sid) by lia. specialize (F Hge). lia.
    + intros Hs. assert (Hlt : sid < length (sessions w)) by lia. specialize (B Hlt). lia.
Qed.

Lemma step_inv w e : inv w -> inv (step w e).
Proof. intros I. eapply evolves_inv; [exact I|]. apply step_evolves, inv_scheduled, I. Qed.

Lemma run_inv w es : inv w -> inv (run w es).
Proof.
  revert w. induction es as [|e es IH]; intros w I; [exact I|].
  apply IH, step_inv, I.
Qed.

Lemma reachable_inv w : reachable w -> inv w.
Proof. intros (bar & btn & es & ->). apply run_inv, inv_init. Qed.

Lemma run_app w es1 es2 : run w (es1 ++ es2) = run (run w es1) es2.
Proof. apply fold_left_app. Qed.

Lemma reachable_run w es : reachable w -> reachable (run w es).
Proof.
  intros (bar & btn & es0 & ->). exists bar, btn, (es0 ++ es). apply eq_sym, run_app.
Qed.

Lemma reachable_step w e : reachable w -> reachable (step w e).
Proof. apply (reachable_run w [e]). Qed.

Lemma run_ages w es : inv w -> ages w (run w es).
Proof.
  revert w. induction es as [|e es IH]; intros w I; [apply ages_refl|].
  eapply ages_trans; [|apply IH, step_inv, I].
  apply step_evolves, inv_scheduled, I.
Qed.



(** Once the budget is spent and its last reconnect has fired, the
    session opens nothing any more. *)
Lemma exhausted_step w e sid :
  inv w -> retries sid w = maxRetries -> reconnecting sid w = 0 ->
  retries sid (step w e) = maxRetries /\ reconnecting sid (step w e) = 0 /\
  opened sid (step w e) = opened sid w.
Proof.
  intros I Hr H0.
  assert (Hs : sid < length (sessions w)) by (apply retries_lt; unfold maxRetries in Hr; lia).
  destruct (step_evolves w e (inv_scheduled w I)) as [_ [[Hl H]|[Hl H]]];
    specialize (H sid).
  - unfold delta in H. lia.
  - destruct (decide (sid = length (sessions w))); [lia|]. unfold quiet_at in H. lia.
Qed.

Lemma exhausted_run w es sid :
  inv w -> retries sid w = maxRetries -> reconnecting sid w = 0 ->
  retries sid (run w es) = maxRetries /\ reconnecting sid (run w es) = 0 /\
  opened sid (run w es) = opened sid w.
Proof.
  revert w. induction es as [|e es IH]; intros w I Hr H0; [auto|].
  destruct (exhausted_step w e sid I Hr H0) as (H1 & H2 & H3).
  destruct (IH (step w e) (step_inv w e I) H1 H2) as (J1 & J2 & J3).
  change (run w (e :: es)) with (run (step w e) es).
  repeat split; [exact J1|exact J2|rewrite J3; exact H3].
Qed.

(** ** Terminal frames *)

Lemma source_session_exists w ch es :
  inv w -> sources w !! ch = Some es -> es_session es < length (sessions w).
Proof.
  intros I H. destruct (Nat.lt_ge_cases (es_session es) (length (sessions w))) as [L|L];
    [exact L|].
  destruct (inv_fresh w I _ L) as (Ho & _).
  pose proof (count_lookup_pos (of_session (es_session es)) _ _ _ H) as P.
  unfold opened in Ho. unfold of_session in P at 1. rewrite Nat.eqb_refl in P.
  specialize (P eq_refl). lia.
Qed.

Lemma closure_exists w ch es :
  inv w -> sources w !! ch = Some es ->
  exists task, closure ch w = Some (es_session es, task).
Proof.
  intros I H. pose proof (source_session_exists w ch es I H) as L.
  destruct (lookup_lt_is_Some_2 _ _ L) as [ss Hss].
  exists (taskId ss). unfold closure. rewrite H. cbn. rewrite Hss. reflexivity.
Qed.





(** ** The retry budget *)

Lemma retries_fresh w sid : length (sessions w) <= sid -> retries sid w = 0.
Proof. intros H. unfold retries. rewrite lookup_ge_None_2 by exact H. reflexivity. Qed.

(** C3, as the code has it.  In every reachable page and for every
    session: [retryCount] is at most [maxRetries] and the session has
    opened at most [maxRetries + 1] EventSources; a handler leaves
    [retryCount] as it is or adds one to it, and adds one only when it
    is strictly below [maxRetries]; the reconnect that fires keeps
    [retryCount] and opens one EventSource more; and once [retryCount]
    is [maxRetries] and no reconnect of the session is pending, the
    session never opens an EventSource again. *)
Theorem retry_budget (w : world) (sid : nat) :
  reachable w ->
  retries sid w <= maxRetries /\
  opened sid w <= S maxRetries /\
  (forall e, retries sid (step w e) = retries sid w \/
             (retries sid w < maxRetries /\ retries sid (step w e) = S (retries sid w))) /\
  (forall i, timers w !! i = Some (Reconnect sid) ->
             retries sid (step w (Fires i)) = retries sid w /\
             opened sid (step w (Fires i)) = S (opened sid w)) /\
  (retries sid w = maxRetries -> reconnecting sid w = 0 ->
   forall evs, opened sid (run w evs) = opened sid w /\
               retries sid (run w evs) = maxRetries).
Proof.
  intros Hreach. pose proof (reachable_inv w Hreach) as I.
  pose proof (inv_retry w I sid) as HR.
  split; [exact HR|]. split; [|split; [|split]].
  - destruct (Nat.lt_ge_cases sid (length (sessions w))) as [L|L].
    + pose proof (inv_budget w I sid L). lia.
    + destruct (inv_fresh w I sid L) as (Ho & _). lia.
  - intros e.
    destruct (step_evolves w e (inv_scheduled w I)) as [_ [[Hl H]|[Hl H]]];
      specialize (H sid).
    + unfold delta in H. lia.
    + destruct (decide (sid = length (sessions w))) as [E|E].
      * left. unfold born in H. rewrite (retries_fresh w sid) by lia. lia.
      * unfold quiet_at in H. lia.
  - intros i Hi. cbn [step]. unfold fire. rewrite Hi.
    set (x := set_timers (delete i) w).
    assert (Hsid : sid < length (sessions w)).
    { destruct (Nat.lt_ge_cases sid (length (sessions w))) as [L|L]; [exact L|].
      destruct (inv_fresh w I sid L) as (_ & _ & Hr).
      pose proof (count_lookup_pos (is_reconnect sid) _ _ _ Hi) as P.
      cbn in P. rewrite Nat.eqb_refl in P. specialize (P eq_refl).
      unfold reconnecting in Hr. lia. }
    destruct (lookup_lt_is_Some_2 _ _ Hsid) as [ss Hss].
    destruct (connect_effect sid ss x Hss) as (Es & Er & _).
    split.
    + unfold retries. rewrite Es. reflexivity.
    + unfold opened. rewrite Er, count_app. cbn. unfold of_session. cbn.
      rewrite Nat.eqb_refl. change (sources x) with (sources w). lia.
  - intros Hmax H0 evs.
    destruct (exhausted_run w evs sid I Hmax H0) as (J1 & _ & J3). auto.
Qed.

Lemma reachable_budget_spent : reachable budget_spent.
Proof.
  exists true, true,
    [ UserTypesPrompt "Summarize file X"; UserSubmitsPrompt;
      Settles 1 (Response true (Some (JObj [("task_id", JStr "t1")]))); Opened 0;
      TransportError 0 false "10:00"; Settles 3 (status_is "running"); Fires 0;
      TransportError 1 false "10:05"; Settles 4 (status_is "running"); Fires 0;
      TransportError 2 false "10:10"; Settles 5 (status_is "running"); Fires 0 ].
  vm_compute. reflexivity.
Qed.

Lemma retry_budget_witness :
  reachable budget_spent /\
  forall evs, opened 0 (run budget_spent evs) = 4 /\
              retries 0 (run budget_spent evs) = maxRetries.
Proof.
  split; [exact reachable_budget_spent|].
  exact (proj2 (proj2 (proj2 (proj2 (retry_budget budget_spent 0 reachable_budget_spent))))
           eq_refl eq_refl).
Defined.

(** C3, as stated, fails between the third retry and its reconnect:
    [retryCount] is already [maxRetries] when the timer fires and
    [connect] opens the fourth EventSource of the session. *)
Lemma reopen_when_retryCount_is_maxRetries :
  retries 0 third_retry_scheduled = maxRetries /\
  timers third_retry_scheduled = [Reconnect 0] /\
  opened 0 third_retry_scheduled = 3 /\
  opened 0 (step third_retry_scheduled (Fires 0)) = 4.
Proof. repeat apply conj; vm_compute; reflexivity. Qed.

Lemma reachable_started : reachable started.
Proof.
  exists true, true,
    [ UserTypesPrompt "Summarize file X"; UserSubmitsPrompt;
      Settles 1 (Response true (Some (JObj [("task_id", JStr "t1")]))); Opened 0 ].
  reflexivity.
Qed.



(** ** Malformed frames *)

Lemma ready_clearInterval c ch w : ready c (clearInterval ch w) = ready c w.
Proof.
  unfold ready. cbn [sources clearInterval set_sources].
  rewrite list_lookup_alter. destruct (decide (ch = c)) as [->|]; [|reflexivity].
  destruct (sources w !! c); reflexivity.
Qed.

Lemma sources_handleEvent ch task data type now w :
  sources (handleEvent ch task data type now w) = sources (clearInterval ch w).
Proof.
  unfold handleEvent. cbv beta zeta. destruct data; [|reflexivity].
  destruct (_ ≫= _); reflexivity.
Qed.

Lemma createHumanRequestElement_sources data task now x st x' :
  createHumanRequestElement data task now x = Ok (st, x') -> sources x' = sources x.
Proof.
  unfold createHumanRequestElement.
  destruct (get data "result") as [result|]; [|discriminate].
  cbn [mbind outcome_bind Js.bind].
  destruct (typeof_object result).
  - destruct (get result "question") as [question|]; [|discriminate].
    cbn [mbind outcome_bind Js.bind].
    destruct (get result "request_id") as [requestId|]; [|discriminate].
    cbn [mbind outcome_bind Js.bind].
    repeat case_match; intros ?; simplify_eq; reflexivity.
  - cbn [mbind outcome_bind Js.bind].
    repeat case_match; intros ?; simplify_eq; reflexivity.
Qed.

Lemma sources_on_ask_human ch task data now w :
  sources (on_ask_human ch task data now w) = sources (clearInterval ch w).
Proof.
  unfold on_ask_human. cbv beta zeta. destruct data; [|reflexivity].
  destruct (createHumanRequestElement _ _ _ _) as [[st x']|] eqn:E; [|reflexivity].
  cbn [sources set_container]. rewrite (createHumanRequestElement_sources _ _ _ _ _ _ E).
  reflexivity.
Qed.

Lemma createHumanRequestElement_no_id data task now x rid :
  request_id_of data = Ok rid -> truthy rid = false ->
  createHumanRequestElement (Val data) task now x =
    Ok (StepAskError now, console_error "No request_id found in ask_human data:" x).
Proof.
  unfold request_id_of, createHumanRequestElement.
  destruct (get (Val data) "result") as [result|]; [|discriminate].
  cbn [mbind outcome_bind Js.bind].
  destruct (typeof_object result) eqn:Ho.
  - intros Hr Hf. rewrite Hr.
    destruct (get result "question") as [q|] eqn:Hq.
    + cbn [mbind outcome_bind Js.bind]. rewrite Hf. destruct rid; reflexivity.
    + destruct result as [|[]]; cbn in *; discriminate.
  - intros [= <-] _. reflexivity.
Qed.

(** C9, as the code has it.  On an open EventSource of a reachable
    page: a frame of any type but [error] whose payload is not JSON is
    only logged to the console: nothing is rendered, no EventSource
    changes its ready state, no request is made, no timer set, and the
    session and the globals are as before, so the frames that follow
    are handled as they would have been; no frame but the terminal ones
    changes the ready state of an EventSource, whatever its payload;
    and an explicit error step is what an [ask_human] frame gets whose
    payload parses, has a [result] that is not [null], and carries no
    request id. *)
Theorem malformed_frame_is_one_bad_frame (w : world) (ch : nat) (es : eventSource)
    (now : string) :
  reachable w -> sources w !! ch = Some es -> es_ready es = OPEN ->
  (forall name, name <> "error" ->
     sessions (step w (Frame ch name None now)) = sessions w /\
     (forall c, ready c (step w (Frame ch name None now)) = ready c w) /\
     inflight (step w (Frame ch name None now)) = inflight w /\
     timers (step w (Frame ch name None now)) = timers w /\
     container (step w (Frame ch name None now)) = container w /\
     askModal (step w (Frame ch name None now)) = askModal w /\
     currentEventSource (step w (Frame ch name None now)) = currentEventSource w /\
     currentTaskId (step w (Frame ch name None now)) = currentTaskId w) /\
  (forall name data, name ∉ terminal_names ->
     forall c, ready c (step w (Frame ch name data now)) = ready c w) /\
  (forall data rid, request_id_of data = Ok rid -> truthy rid = false ->
     container (step w (Frame ch "ask_human" (Some data) now)) =
       appendChild (StepAskError now) (ensureStepContainer (remove_loading (container w))) /\
     askModal (step w (Frame ch "ask_human" (Some data) now)) = askModal w /\
     inflight (step w (Frame ch "ask_human" (Some data) now)) = inflight w).
Proof.
  intros Hreach Hes Hopen. pose proof (reachable_inv w Hreach) as I.
  destruct (closure_exists w ch es I Hes) as [task Hc].
  assert (Hstep : forall name data,
            step w (Frame ch name data now) = listen ch (es_session es) task name data now w).
  { intros name data. cbn [step]. unfold deliver. rewrite Hes, Hc, Hopen. reflexivity. }
  split; [|split].
  - intros name Hname. rewrite Hstep. unfold listen.
    destruct (existsb _ _); [repeat split; try reflexivity; intros c; exact (ready_clearInterval c ch w)|].
    destruct (String.eqb name "ask_human");
      [repeat split; try reflexivity; intros c; exact (ready_clearInterval c ch w)|].
    destruct (String.eqb name "complete");
      [repeat split; try reflexivity; intros c; exact (ready_clearInterval c ch w)|].
    destruct (String.eqb_spec name "error") as [E|_]; [contradiction|].
    destruct (String.eqb name "cancelled");
      [repeat split; try reflexivity; intros c; exact (ready_clearInterval c ch w)|].
    repeat split; reflexivity.
  - intros name data Hname c. rewrite Hstep. unfold listen.
    unfold terminal_names in Hname. rewrite !not_elem_of_cons in Hname.
    destruct Hname as (H1 & H2 & H3 & _).
    destruct (existsb _ _).
    { unfold ready. rewrite sources_handleEvent. apply ready_clearInterval. }
    destruct (String.eqb name "ask_human").
    { unfold ready. rewrite sources_on_ask_human. apply ready_clearInterval. }
    destruct (String.eqb_spec name "complete") as [E|_]; [contradiction|].
    destruct (String.eqb_spec name "error") as [E|_]; [contradiction|].
    destruct (String.eqb_spec name "cancelled") as [E|_]; [contradiction|].
    reflexivity.
  - intros data rid Hrid Hf. rewrite Hstep.
    change (listen ch (es_session es) task "ask_human" (Some data) now w)
      with (on_ask_human ch task (Some data) now w).
    unfold on_ask_human. cbv beta zeta.
    rewrite (createHumanRequestElement_no_id _ _ _ _ _ Hrid Hf).
    repeat split; reflexivity.
Qed.

Lemma malformed_frame_is_one_bad_frame_witness :
  reachable started /\
  container (step started (Frame 0 "ask_human" (Some (JObj [("result", JStr "Proceed?")]))
                             "10:00")) = [StepContainer [StepAskError "10:00"]] /\
  ready 0 (step started (Frame 0 "think" None "10:00")) = Some OPEN.
Proof.
  split; [exact reachable_started|].
  destruct (malformed_frame_is_one_bad_frame started 0
              {| es_session := 0; es_ready := OPEN; es_heartbeat := true |} "10:00"
              reachable_started eq_refl eq_refl) as (Ha & _ & Hc).
  split.
  - exact (proj1 (Hc (JObj [("result", JStr "Proceed?")]) (Val JNull) eq_refl eq_refl)).
  - assert (Hn : "think" <> "error") by discriminate.
    destruct (Ha "think" Hn) as (_ & Hr & _). rewrite Hr. reflexivity.
Defined.

(** C9, as stated, fails on the rendering: a [think] frame whose
    payload is not JSON leaves the container as it was (the loading
    notice alone); the error goes to the console, not to the page. *)
Lemma unparseable_frame_renders_nothing :
  container started = [Loading] /\
  container (step started (Frame 0 "think" None "10:00")) = [Loading] /\
  trace (step started (Frame 0 "think" None "10:00")) =
    trace started ++ [ConsoleError "Error handling think event:"].
Proof. repeat apply conj; vm_compute; reflexivity. Qed.

(** ** Human Handshake Coordinator *)

(** C8 fails on a [result] that is [null]: [typeof null] is
    ['object'], so [createHumanRequestElement] reads [question] off
    [null] and throws before it reaches its own test for a missing
    request id.  The listener logs the TypeError: the step container
    stays empty, no error step is rendered (and no modal is shown). *)
Theorem null_result_renders_no_error_step :
  ready 0 started = Some OPEN /\
  container null_question = [StepContainer []] /\
  askModal null_question = None /\
  trace null_question = trace started ++ [ConsoleError "Error handling ask_human event:"].
Proof. repeat apply conj; vm_compute; reflexivity. Qed.

(** C7 fails on the buttons: [showModalLoading] disables them before
    the request goes out and nothing enables them again when it fails.
    After a refused or a lost answer the modal is still there and
    shows the error, but a click on Send or on Skip does nothing. *)
Theorem refused_answer_leaves_buttons_disabled :
  (m_disabled <$> askModal answer_refused) = Some true /\
  (m_footer <$> askModal answer_refused) = Some (FooterError "Error: Server busy") /\
  step answer_refused (UserClicks Respond) = answer_refused /\
  step answer_refused (UserClicks Skip) = answer_refused /\
  (m_disabled <$> askModal answer_lost) = Some true /\
  (m_footer <$> askModal answer_lost) =
    Some (FooterError "Network error. Please try again.") /\
  step answer_lost (UserClicks Respond) = answer_lost.
Proof. repeat apply conj; vm_compute; reflexivity. Qed.

(** C6 fails when two questions are pending: [updateLogElement] does
    not look at its [requestId] and updates the first step that still
    shows the waiting text.  The modal asks the second question (r2),
    the skip posts r2 with the sentinel text, and on the 2xx reply it
    is the step of the first question (r1) that shows '(skipped)'; the
    step of r2 goes on waiting. *)
Theorem skip_updates_first_pending_step :
  (m_request <$> askModal two_questions) = Some (JStr "r2") /\
  trace (step two_questions (UserClicks Skip)) =
    trace two_questions ++ [Fetch (PostRespond "t1" (JStr "r2") skip_sentinel Skip)] /\
  container second_skipped =
    [StepContainer
       [ StepAsk "10:00" (Val (JStr "Proceed?")) "User response: (skipped)";
         StepAsk "10:05" (Val (JStr "Overwrite?")) waiting_text ]].
Proof. repeat apply conj; vm_compute; reflexivity. Qed.

(** * Further properties *)

(** ** One connection at a time *)

(** X1. In every reachable page a session has at most one of: an
    EventSource that is not closed, a poll of [onerror] in flight, a
    reconnect scheduled.  In particular it never has two open
    EventSources, and never reconnects while one is open. *)
Theorem one_connection_per_session (w : world) (sid : nat) :
  reachable w -> live sid w + polling sid w + reconnecting sid w <= 1.
Proof. intros H. apply (inv_tokens w (reachable_inv w H)). Qed.

Lemma one_connection_per_session_witness :
  reachable budget_spent /\
  live 0 budget_spent + polling 0 budget_spent + reconnecting 0 budget_spent <= 1.
Proof.
  split; [exact reachable_budget_spent|].
  exact (one_connection_per_session budget_spent 0 reachable_budget_spent).
Defined.

(** X2. The EventSources a session has opened, plus its reconnect
    still to fire, are one more than its [retryCount]: every EventSource
    after the first was paid for by one retry. *)
Theorem retries_account_for_reopens (w : world) (sid : nat) :
  reachable w -> sid < length (sessions w) ->
  opened sid w + reconnecting sid w = S (retries sid w).
Proof. intros H. apply (inv_budget w (reachable_inv w H)). Qed.

Lemma retries_account_for_reopens_witness :
  reachable third_retry_scheduled /\
  opened 0 third_retry_scheduled + reconnecting 0 third_retry_scheduled = 4.
Proof.
  assert (R : reachable third_retry_scheduled).
  { exists true, true,
      [ UserTypesPrompt "Summarize file X"; UserSubmitsPrompt;
        Settles 1 (Response true (Some (JObj [("task_id", JStr "t1")]))); Opened 0;
        TransportError 0 false "10:00"; Settles 3 (status_is "running"); Fires 0;
        TransportError 1 false "10:05"; Settles 4 (status_is "running"); Fires 0;
        TransportError 2 false "10:10"; Settles 5 (status_is "running") ].
    vm_compute. reflexivity. }
  split; [exact R|].
  assert (L : 0 < length (sessions third_retry_scheduled)) by (vm_compute; lia).
  rewrite (retries_account_for_reopens third_retry_scheduled 0 R L). reflexivity.
Defined.

(** X3. An EventSource that is closed stays closed whatever happens
    next: the code reconnects by building a new EventSource, never by
    reviving an old one. *)
Theorem closed_stays_closed (w : world) (ch : nat) (evs : list event) :
  reachable w -> ready ch w = Some CLOSED -> ready ch (run w evs) = Some CLOSED.
Proof.
  intros H. unfold ready. destruct (sources w !! ch) as [es|] eqn:E; [|discriminate].
  cbn. intros [= Hc].
  destruct (run_ages w evs (reachable_inv w H) ch es E) as (es' & E' & _ & Hc').
  rewrite E'. cbn. f_equal. apply Hc', Hc.
Qed.

Lemma closed_stays_closed_witness :
  reachable budget_spent /\
  ready 0 (run budget_spent [Opened 0; Frame 0 "think" None "11:00"]) = Some CLOSED.
Proof.
  split; [exact reachable_budget_spent|].
  apply (closed_stays_closed budget_spent 0 _ reachable_budget_spent). reflexivity.
Defined.

(** ** The poll of onerror *)




(** X5. A status poll that fails (the request is rejected, or the body
    is not JSON) is only logged: no EventSource changes, the session,
    the timers, the narrative, the status bar and the current task are
    as before. *)
Theorem failed_poll_changes_nothing (w : world) (i : nat) (site : poll_site)
    (task : json) (r : reply) :
  inflight w !! i = Some (GetStatus site task) -> is_poll_failure r ->
  sources (step w (Settles i r)) = sources w /\
  sessions (step w (Settles i r)) = sessions w /\
  timers (step w (Settles i r)) = timers w /\
  container (step w (Settles i r)) = container w /\
  statusBar (step w (Settles i r)) = statusBar w /\
  currentEventSource (step w (Settles i r)) = currentEventSource w /\
  currentTaskId (step w (Settles i r)) = currentTaskId w /\
  inflight (step w (Settles i r)) = delete i (inflight w).
Proof.
  intros Hi Hr. cbn [step]. unfold settle. rewrite Hi. cbv beta zeta.
  destruct r as [|ok [body|]]; try contradiction; repeat split; reflexivity.
Qed.

Lemma failed_poll_changes_nothing_witness :
  ready 0 (step started (Settles 1 NetworkError)) = Some OPEN.
Proof.
  destruct (failed_poll_changes_nothing started 1 Initial (JStr "t1") NetworkError
              eq_refl I) as (H & _).
  unfold ready. rewrite H. reflexivity.
Defined.

(** ** Submitting an answer *)






(** ** The step of a question *)

Lemma update_steps_spec text steps steps' :
  update_steps text steps = Some (Ok steps') ->
  exists i timestamp question em,
    steps !! i = Some (StepAsk timestamp question em) /\
    Str.includes waiting_needle (textContent (StepAsk timestamp question em)) = true /\
    steps' = <[i := StepAsk timestamp question text]> steps.
Proof.
  revert steps'. induction steps as [|st steps IH]; intros steps'; [discriminate|].
  cbn [update_steps].
  assert (Hskip :
    (λ r, match r with Ok l => Ok (st :: l) | Throw e => Throw e end)
      <$> update_steps text steps = Some (Ok steps') ->
    exists i timestamp question em,
      (st :: steps) !! i = Some (StepAsk timestamp question em) /\
      Str.includes waiting_needle (textContent (StepAsk timestamp question em)) = true /\
      steps' = <[i := StepAsk timestamp question text]> (st :: steps)).
  { destruct (update_steps text steps) as [[l|e]|]; cbn; try discriminate.
    intros [= <-]. destruct (IH l eq_refl) as (i & ts & q & em & H1 & H2 & ->).
    exists (S i), ts, q, em. repeat split; assumption. }
  destruct st as [| | |ts q em]; try exact Hskip.
  - destruct (Str.includes _ _); [discriminate|exact Hskip].
  - destruct (Str.includes _ _) eqn:Hin; [|exact Hskip].
    intros [= <-]. exists 0, ts, q, em. repeat split. exact Hin.
Qed.

Lemma update_nodes_spec text nodes nodes' :
  update_nodes text nodes = Some (Ok nodes') ->
  exists pre steps post i timestamp question em,
    nodes = pre ++ StepContainer steps :: post /\
    steps !! i = Some (StepAsk timestamp question em) /\
    nodes' = pre ++ StepContainer (<[i := StepAsk timestamp question text]> steps) :: post.
Proof.
  revert nodes'. induction nodes as [|n nodes IH]; intros nodes'; [discriminate|].
  cbn [update_nodes].
  assert (Hskip : forall n0,
    (λ r, match r with Ok l => Ok (n0 :: l) | Throw e => Throw e end)
      <$> update_nodes text nodes = Some (Ok nodes') ->
    exists pre steps post i timestamp question em,
      n0 :: nodes = pre ++ StepContainer steps :: post /\
      steps !! i = Some (StepAsk timestamp question em) /\
      nodes' = pre ++ StepContainer (<[i := StepAsk timestamp question text]> steps) :: post).
  { intros n0. destruct (update_nodes text nodes) as [[l|e]|]; cbn; try discriminate.
    intros [= <-].
    destruct (IH l eq_refl) as (pre & steps & post & i & ts & q & em & -> & H2 & ->).
    exists (n0 :: pre), steps, post, i, ts, q, em. repeat split. exact H2. }
  destruct n as [| |steps| | | | | |]; try apply Hskip.
  destruct (update_steps text steps) as [[steps'|e]|] eqn:E; try discriminate.
  - intros [= <-].
    destruct (update_steps_spec _ _ _ E) as (i & ts & q & em & H1 & _ & ->).
    exists [], steps, nodes, i, ts, q, em. repeat split. exact H1.
  - apply Hskip.
Qed.

(** X8. [updateLogElement] never adds, removes or reorders a step:
    when it returns, the page is as before, or exactly one step, a
    question of the narrative, has had its waiting text replaced by
    the response line; every other step and node is untouched. *)
Theorem updateLogElement_rewrites_one_step (requestId : value) (response : string)
    (a : action) (w w' : world) :
  updateLogElement requestId response a w = Ok w' ->
  w' = w \/
  exists pre steps post i timestamp question em,
    container w = pre ++ StepContainer steps :: post /\
    steps !! i = Some (StepAsk timestamp question em) /\
    w' = set_container
           (fun _ => pre ++ StepContainer
                              (<[i := StepAsk timestamp question
                                        ("User response: " +:+
                                         match a with
                                         | Skip => "(skipped)"
                                         | Respond => dquote +:+ response +:+ dquote
                                         end)]> steps) :: post) w.
Proof.
  unfold updateLogElement.
  destruct (update_nodes _ (container w)) as [[c|e]|] eqn:E; try discriminate.
  - intros [= <-]. right.
    destruct (update_nodes_spec _ _ _ E) as (pre & steps & post & i & ts & q & em & H1 & H2 & ->).
    exists pre, steps, post, i, ts, q, em. repeat split; assumption.
  - intros [= <-]. left. reflexivity.
Qed.

Lemma updateLogElement_rewrites_one_step_witness :
  updateLogElement (Val (JStr "r1")) "yes" Respond answer_typed = Ok answer_logged /\
  (answer_logged = answer_typed \/
   exists pre steps post i timestamp question em,
     container answer_typed = pre ++ StepContainer steps :: post /\
     steps !! i = Some (StepAsk timestamp question em) /\
     answer_logged = set_container
       (fun _ => pre ++ StepContainer
                          (<[i := StepAsk timestamp question
                                    ("User response: " +:+ dquote +:+ "yes" +:+ dquote)]> steps)
                        :: post) answer_typed).
Proof.
  assert (H : updateLogElement (Val (JStr "r1")) "yes" Respond answer_typed = Ok answer_logged)
    by reflexivity.
  split; [exact H|].
  exact (updateLogElement_rewrites_one_step _ _ _ _ _ H).
Defined.

(** ** Creating a task *)

(** X9. When the reply to POST /tasks gives no task id (the request
    failed, the reply is not 2xx, its body is not JSON or has no
    truthy [task_id]), no session is created and no EventSource
    opened: the container shows the error alone, the cancel button is
    hidden, and [currentTaskId] is as before. *)
Theorem failed_creation_opens_nothing (w : world) (i : nat) (prompt : string) (r : reply) :
  inflight w !! i = Some (PostTask prompt) -> no_task_id r ->
  sessions (step w (Settles i r)) = sessions w /\
  sources (step w (Settles i r)) = sources w /\
  currentTaskId (step w (Settles i r)) = currentTaskId w /\
  currentEventSource (step w (Settles i r)) = currentEventSource w /\
  inflight (step w (Settles i r)) = delete i (inflight w) /\
  cancelBtn (step w (Settles i r)) = (fun _ => false) <$> cancelBtn w /\
  exists e, container (step w (Settles i r)) = [CreateError e].
Proof.
  intros Hi Hr. cbn [step]. unfold settle. rewrite Hi. cbv beta zeta.
  unfold createTask_settled. cbv beta zeta.
  assert (Hbtn : forall x : world,
            match cancelBtn x with Some _ => Some false | None => None end
            = (fun _ => false) <$> cancelBtn x) by (intros x; destruct (cancelBtn x); reflexivity).
  destruct r as [|[|] [data|]]; cbn [no_task_id] in Hr.
  - repeat split; try apply Hbtn; try (eexists; reflexivity).
  - destruct (get (Val data) "task_id") as [[|t]|e] eqn:Ht.
    + repeat split; try apply Hbtn; try (eexists; reflexivity).
    + rewrite (Hr _ eq_refl). repeat split; try apply Hbtn; try (eexists; reflexivity).
    + repeat split; try apply Hbtn; try (eexists; reflexivity).
  - repeat split; try apply Hbtn; try (eexists; reflexivity).
  - destruct (get (Val data) "detail");
      (repeat split; try apply Hbtn; try (eexists; reflexivity)).
  - repeat split; try apply Hbtn; try (eexists; reflexivity).
Qed.

Lemma failed_creation_opens_nothing_witness :
  sessions (step submitted (Settles 1 (Response true (Some (JObj [("task_id", JStr "")])))))
    = [] /\
  container (step submitted (Settles 1 (Response true (Some (JObj [("task_id", JStr "")])))))
    = [CreateError (Error "Invalid task ID")].
Proof.
  assert (Hn : no_task_id (Response true (Some (JObj [("task_id", JStr "")])))).
  { intros t [= <-]. reflexivity. }
  destruct (failed_creation_opens_nothing submitted 1 "Summarize file X" _ eq_refl Hn)
    as (Hs & _).
  rewrite Hs. split; reflexivity.
Defined.



(** ** Heartbeat *)

Lemma silent_clearInterval ch x : silent ch (sources (clearInterval ch x)).
Proof.
  intros es. cbn [sources clearInterval set_sources]. rewrite list_lookup_alter_eq.
  destruct (sources x !! ch); cbn; [|discriminate]. intros [= <-]. reflexivity.
Qed.

Lemma silent_close ch c x : silent ch (sources x) -> silent ch (sources (close c x)).
Proof.
  intros H es. cbn [sources close emit set_sources]. rewrite list_lookup_alter.
  destruct (decide (c = ch)) as [->|]; [|apply H].
  destruct (sources x !! ch) as [e|] eqn:E; cbn; [|discriminate].
  intros [= <-]. cbn. apply H, E.
Qed.

Lemma sources_terminal ch sid task name data w :
  let after :=
    if String.eqb name "complete" then on_complete ch sid task data w
    else if String.eqb name "error" then on_error_event ch data w
    else on_cancelled ch task data w in
  sources after = sources (clearInterval ch w) \/
  sources after = sources (close ch (clearInterval ch w)).
Proof.
  cbv zeta. destruct (String.eqb name "complete"); [|destruct (String.eqb name "error")].
  - unfold on_complete. destruct data as [data|]; [|left; reflexivity].
    destruct (get (Val data) "result"); [right|left]; reflexivity.
  - unfold on_error_event. destruct data as [data|]; [|left; reflexivity].
    destruct (get (Val data) "message"); [right|left]; reflexivity.
  - unfold on_cancelled. destruct data as [data|]; [right|left]; reflexivity.
Qed.

Lemma silent_terminal ch sid task name data w :
  silent ch (sources (if String.eqb name "complete" then on_complete ch sid task data w
                      else if String.eqb name "error" then on_error_event ch data w
                      else on_cancelled ch task data w)).
Proof.
  destruct (sources_terminal ch sid task name data w) as [E|E]; cbv zeta in E; rewrite E.
  - apply silent_clearInterval.
  - apply silent_close, silent_clearInterval.
Qed.

Lemma silent_listen ch sid task name data now w :
  name ∈ registered -> silent ch (sources (listen ch sid task name data now w)).
Proof.
  intros Hname. unfold listen.
  destruct (existsb _ _) eqn:E0.
  { rewrite sources_handleEvent. apply silent_clearInterval. }
  destruct (String.eqb name "ask_human") eqn:E1.
  { rewrite sources_on_ask_human. apply silent_clearInterval. }
  pose proof (silent_terminal ch sid task name data w) as T.
  destruct (String.eqb name "complete") eqn:E2; [exact T|].
  destruct (String.eqb name "error") eqn:E3.
  { unfold onerror.
    destruct (sources (on_error_event ch data w) !! ch) as [es0|]; [|exact T].
    destruct (readyState_eqb _ _); [exact T|].
    apply (silent_close ch ch (clearInterval ch _)), silent_clearInterval. }
  destruct (String.eqb name "cancelled") eqn:E4; [exact T|].
  exfalso. clear T. unfold registered, eventTypes in Hname. cbn [app] in Hname.
  rewrite !elem_of_cons, elem_of_nil in Hname.
  destruct Hname as [->|[->|[->|[->|[->|[->|[->|[->|[->|[->|[]]]]]]]]]]];
    first [ discriminate E0 | discriminate E1 | discriminate E2
          | discriminate E3 | discriminate E4 ].
Qed.

(** X11. Every frame of a listened type that reaches an open
    EventSource stops its heartbeat: after it, the five-second tick
    adds no ping any more, whatever the frame carried. *)
Theorem frame_stops_heartbeat (w : world) (ch : nat) (es : eventSource)
    (name : string) (data : option json) (now : string) :
  reachable w -> sources w !! ch = Some es -> es_ready es = OPEN ->
  name ∈ registered ->
  step (step w (Frame ch name data now)) (HeartbeatTick ch) = step w (Frame ch name data now).
Proof.
  intros Hreach Hes Hopen Hname.
  destruct (closure_exists w ch es (reachable_inv w Hreach) Hes) as [task Hc].
  assert (Hstep : step w (Frame ch name data now)
                  = listen ch (es_session es) task name data now w).
  { cbn [step]. unfold deliver. rewrite Hes, Hc, Hopen. reflexivity. }
  rewrite Hstep. cbn [step]. unfold heartbeat.
  pose proof (silent_listen ch (es_session es) task name data now w Hname) as S.
  destruct (sources (listen ch (es_session es) task name data now w) !! ch)
    as [es'|] eqn:E; [|reflexivity].
  rewrite (S es' E). reflexivity.
Qed.

Lemma frame_stops_heartbeat_witness :
  container (step started (HeartbeatTick 0)) = [Loading; Ping] /\
  container (run started [Frame 0 "think" None "10:00"; HeartbeatTick 0]) = [Loading].
Proof.
  split; [reflexivity|].
  assert (Hn : "think" ∈ registered)
    by (unfold registered, eventTypes; cbn [app]; rewrite !elem_of_cons; auto).
  change (run started [Frame 0 "think" None "10:00"; HeartbeatTick 0])
    with (step (step started (Frame 0 "think" None "10:00")) (HeartbeatTick 0)).
  rewrite (frame_stops_heartbeat started 0
             {| es_session := 0; es_ready := OPEN; es_heartbeat := true |}
             "think" None "10:00" reachable_started eq_refl eq_refl Hn).
  reflexivity.
Defined.

(** ** Steps of the narrative *)







(** X13. A frame of a generic type whose payload parses but has no
    [result]: for [act] the step cannot be built ([undefined] has no
    [match]), nothing is appended to the narrative and no status poll
    follows, though the loading notice is already gone; for every
    other type a step showing [undefined] is appended and the status
    is polled. *)
Theorem frame_without_result (w : world) (ch : nat) (es : eventSource)
    (type : string) (data : json) (now : string) :
  reachable w -> sources w !! ch = Some es -> es_ready es = OPEN ->
  type ∈ eventTypes -> get (Val data) "result" = Ok Undefined ->
  (type = "act" ->
     container (step w (Frame ch type (Some data) now)) =
       ensureStepContainer (remove_loading (container w)) /\
     inflight (step w (Frame ch type (Some data) now)) = inflight w) /\
  (type <> "act" ->
     container (step w (Frame ch type (Some data) now)) =
       appendChild (StepItem type (getEventIcon type) (getEventLabel type) now Undefined None)
                   (ensureStepContainer (remove_loading (container w))) /\
     exists task,
       inflight (step w (Frame ch type (Some data) now)) =
         inflight w ++ [GetStatus AfterStep task]).
Proof.
  intros Hreach Hes Hopen Htype Hres.
  destruct (closure_exists w ch es (reachable_inv w Hreach) Hes) as [task Hc].
  assert (Hstep : step w (Frame ch type (Some data) now)
                  = handleEvent ch task (Some data) type now w).
  { cbn [step]. unfold deliver. rewrite Hes, Hc, Hopen. cbn [readyState_eqb].
    unfold listen.
    assert (E : existsb (String.eqb type) eventTypes = true).
    { apply existsb_exists. exists type. split; [|apply String.eqb_refl].
      apply list_elem_of_In, Htype. }
    rewrite E. reflexivity. }
  rewrite Hstep. unfold handleEvent, formatStepContent. rewrite Hres.
  cbn [mbind outcome_bind Js.bind].
  unfold eventTypes in Htype. rewrite !elem_of_cons, elem_of_nil in Htype.
  split.
  - intros ->. split; reflexivity.
  - intros Hne.
    destruct Htype as [->|[->|[->|[->|[->|[->|[]]]]]]]; try contradiction;
      (split; [reflexivity|exists task; reflexivity]).
Qed.

Lemma frame_without_result_witness :
  container (step started (Frame 0 "act" (Some (JObj [])) "10:00")) = [StepContainer []].
Proof.
  assert (Ht : "act" ∈ eventTypes) by (unfold eventTypes; rewrite !elem_of_cons; auto).
  destruct (frame_without_result started 0
              {| es_session := 0; es_ready := OPEN; es_heartbeat := true |}
              "act" (JObj []) "10:00" reachable_started eq_refl eq_refl Ht eq_refl)
    as [H _].
  rewrite (proj1 (H eq_refl)). reflexivity.
Defined.

(** ** Cancelling *)








(** X15. Cancelling never touches the stream: neither the request to
    cancel nor any reply to it closes an EventSource, clears the
    current task, issues or drops a status poll or a reconnect, or
    changes the narrative.  The page goes on showing the task until
    the server pushes a terminal frame or a poll reports one. *)
Theorem cancel_leaves_stream (p : page) (confirmed : bool) (i : nat) (r : reply)
    (found : task_element) :
  stream_state (core (page_step p (CancelClicked confirmed))) = stream_state (core p) /\
  stream_state (core (page_step p (CancelSettles i r found))) = stream_state (core p).
Proof.
  split; cbn [page_step].
  - unfold cancelCurrentTask, cancelTask. repeat case_match; reflexivity.
  - destruct (cancelling p !! i); [|reflexivity].
    unfold cancel_settled. repeat case_match; reflexivity.
Qed.

(** ** Splitting *)

Lemma split_cons (sep : ascii) (s : string) :
  exists l ls, Text.split sep s = l :: ls.
Proof.
  induction s as [|c s (l & ls & IH)]; cbn [Text.split]; [eauto|].
  destruct (Ascii.eqb c sep); [eauto|]. rewrite IH. eauto.
Qed.

Lemma split_no_sep (sep : ascii) (s : string) :
  Text.has sep s = false -> Text.split sep s = [s].
Proof.
  unfold Text.has. induction s as [|c s IH]; cbn; [reflexivity|].
  intros H. apply orb_false_elim in H as [Hc Hs].
  rewrite Ascii.eqb_sym, Hc, (IH Hs). reflexivity.
Qed.

Lemma split_at_sep (sep : ascii) (a b : string) :
  Text.has sep a = false ->
  Text.split sep (a +:+ String sep b) = a :: Text.split sep b.
Proof.
  unfold Text.has. induction a as [|c a IH]; simpl.
  - intros _. rewrite Ascii.eqb_refl. reflexivity.
  - intros H. apply orb_false_elim in H as [Hc Ha].
    rewrite Ascii.eqb_sym, Hc, (IH Ha). reflexivity.
Qed.

Lemma split_app (sep : ascii) (s t : string) :
  Text.split sep (s +:+ t) =
    removelast (Text.split sep s) ++ Text.split sep (List.last (Text.split sep s) "" +:+ t).
Proof.
  induction s as [|c s IH]; [reflexivity|].
  change (String c s +:+ t) with (String c (s +:+ t)).
  cbn [Text.split]. destruct (Ascii.eqb c sep) eqn:Hc.
  - rewrite IH. destruct (split_cons sep s) as (l & ls & ->). reflexivity.
  - rewrite IH. destruct (split_cons sep s) as (l & [|l' ls] & ->).
    + cbn [removelast List.last app].
      change (String c l +:+ t) with (String c (l +:+ t)).
      cbn [Text.split]. rewrite Hc. reflexivity.
    + reflexivity.
Qed.

Lemma split_last_no_sep (sep : ascii) (s : string) :
  Text.has sep (List.last (Text.split sep s) "") = false.
Proof.
  induction s as [|c s IH]; [reflexivity|].
  cbn [Text.split]. destruct (Ascii.eqb c sep) eqn:Hc.
  - destruct (split_cons sep s) as (l & ls & E). rewrite E in *. exact IH.
  - destruct (split_cons sep s) as (l & [|l' ls] & E); rewrite E in *.
    + cbn [List.last] in *. unfold Text.has in *. cbn.
      rewrite Ascii.eqb_sym, Hc. exact IH.
    + exact IH.
Qed.

Lemma has_app (c : ascii) (a b : string) :
  Text.has c (a +:+ b) = Text.has c a || Text.has c b.
Proof.
  unfold Text.has. induction a as [|x a IH]; simpl; [reflexivity|].
  rewrite IH. apply orb_assoc.
Qed.

(** ** The authorization cookie *)

Lemma trim_after_space (s : string) : Str.trim (String " " s) = Str.trim s.
Proof.
  unfold Str.trim. f_equal. unfold Str.trimStart.
  cbn [String.length Str.strip_all]. rewrite strip_space. reflexivity.
Qed.

Lemma isAuthorized_after_space (s : string) :
  isAuthorized (String " " s) = isAuthorized s.
Proof.
  unfold isAuthorized. cbn [Text.split].
  change (Ascii.eqb " " ";") with false. cbv iota.
  destruct (split_cons ";" s) as (l & ls & ->).
  cbn [map existsb]. rewrite trim_after_space. reflexivity.
Qed.

(** X16. [isAuthorized] looks at every cookie of [document.cookie]
    (the cookies joined by a semicolon and a space): it answers yes
    exactly when one of them, trimmed, begins with [auth=], wherever
    it stands in the list and whatever its value, the empty one
    included. *)
Theorem isAuthorized_reads_each_cookie (cookies : list string) :
  Forall (fun c => Text.has ";" c = false) cookies ->
  isAuthorized (String.concat "; " cookies)
  = existsb (fun c => String.prefix "auth=" (Str.trim c)) cookies.
Proof.
  induction cookies as [|c cs IH]; intros H; [reflexivity|].
  apply Forall_cons in H as [Hc Hcs]. specialize (IH Hcs).
  destruct cs as [|c' cs].
  - unfold isAuthorized. cbn [String.concat]. rewrite (split_no_sep _ _ Hc).
    reflexivity.
  - change (String.concat "; " (c :: c' :: cs))
      with (c +:+ String ";" (String " " (String.concat "; " (c' :: cs)))).
    transitivity (String.prefix "auth=" (Str.trim c)
                  || isAuthorized (String.concat "; " (c' :: cs)));
      [|rewrite IH; reflexivity].
    rewrite <- (isAuthorized_after_space (String.concat "; " (c' :: cs))).
    unfold isAuthorized. rewrite (split_at_sep _ _ _ Hc). reflexivity.
Qed.

Lemma isAuthorized_reads_each_cookie_witness :
  isAuthorized "theme=dark; auth=; lang=en" = true.
Proof.
  change (isAuthorized (String.concat "; " ["theme=dark"; "auth="; "lang=en"]) = true).
  rewrite (isAuthorized_reads_each_cookie ["theme=dark"; "auth="; "lang=en"]).
  - vm_compute. reflexivity.
  - repeat constructor.
Defined.

(** ** The chat client *)

Section ChatProperties.

Variable JSON_parse : string -> option json.

Lemma last_app_cons {A} (l l' : list A) (x d : A) :
  List.last (l ++ x :: l') d = List.last (x :: l') d.
Proof.
  induction l as [|a l IH]; [reflexivity|].
  cbn [app]. rewrite <- IH. destruct l; reflexivity.
Qed.

Lemma append_assoc (a b c : string) : (a +:+ b) +:+ c = a +:+ b +:+ c.
Proof.
  induction a as [|x a IH]; [reflexivity|].
  change (String x ((a +:+ b) +:+ c) = String x (a +:+ b +:+ c)).
  rewrite IH. reflexivity.
Qed.

Lemma read_read (s t : string) (c : chat) :
  read JSON_parse t (read JSON_parse s c) = read JSON_parse (s +:+ t) c.
Proof.
  unfold read. cbn [buffer messages].
  rewrite <- append_assoc, (split_app "010" (buffer c +:+ s) t).
  destruct (split_cons "010" (List.last (Text.split "010" (buffer c +:+ s)) "" +:+ t))
    as (l & ls & E).
  rewrite E, last_app_cons, removelast_app, fold_left_app by discriminate.
  reflexivity.
Qed.

(** X17. How the reply is cut into chunks does not show: the bot
    messages added, and the text left in the buffer, after reading a
    reply chunk by chunk are those of reading it in one piece. *)
Theorem chunking_is_invisible (chunk : string) (chunks : list string) (c : chat) :
  stream JSON_parse (chunk :: chunks) c
  = read JSON_parse (String.concat "" (chunk :: chunks)) c.
Proof.
  revert chunk c. induction chunks as [|chunk' chunks IH]; intros chunk c.
  - reflexivity.
  - change (stream JSON_parse (chunk :: chunk' :: chunks) c)
      with (stream JSON_parse (chunk' :: chunks) (read JSON_parse chunk c)).
    rewrite IH, read_read. reflexivity.
Qed.

(** X18. Text after the last line feed adds no message: a last line
    the server does not end with a line feed stays in the buffer,
    which nothing reads once the reply is over. *)
Theorem unterminated_line_is_not_shown (s t : string) (c : chat) :
  Text.has "010" t = false ->
  messages (read JSON_parse (s +:+ t) c) = messages (read JSON_parse s c).
Proof.
  intros Ht. rewrite <- read_read.
  set (c' := read JSON_parse s c).
  assert (Hb : Text.has "010" (buffer c') = false)
    by apply split_last_no_sep.
  unfold read at 1. cbn [messages].
  rewrite split_no_sep by (rewrite has_app, Hb, Ht; reflexivity).
  reflexivity.
Qed.

End ChatProperties.

Lemma unterminated_line_is_not_shown_witness :
  messages (read parse_hello (hello_line +:+ "data: {}")
              {| buffer := ""; messages := [] |})
  = [Val (JStr "hi")].
Proof.
  rewrite (unterminated_line_is_not_shown parse_hello hello_line "data: {}"
             {| buffer := ""; messages := [] |} eq_refl).
  vm_compute. reflexivity.
Defined.

(** ** Saved files *)

Lemma after_last_no_sep (sep : ascii) (s : string) :
  Text.has sep (Str.after_last sep s) = false.
Proof.
  unfold Text.has. induction s as [|c s IH]; [reflexivity|].
  cbn [Str.after_last].
  destruct (existsb (Ascii.eqb sep) (String.list_ascii_of_string s)) eqn:Hs; [exact IH|].
  destruct (Ascii.eqb c sep) eqn:Hc; [exact Hs|].
  cbn. rewrite Ascii.eqb_sym, Hc, Hs. reflexivity.
Qed.

(** X19. Whatever step [createStepElement] builds with a file to
    preview or download, the name it puts into the links has no
    slash in it: the directory of the saved path is dropped, so the
    links of [notes/a.txt] and of [a.txt] are the same. *)
Theorem file_links_drop_the_directory (type : string) (content : value)
    (timestamp : string) (type' : string) (icon label : display) (timestamp' : string)
    (content' : value) (f : file_ref) :
  createStepElement type content timestamp
    = Ok (StepItem type' icon label timestamp' content' (Some f)) ->
  Text.has "/" (fileName f) = false.
Proof.
  unfold createStepElement. intros H.
  repeat case_match; simplify_eq.
  match goal with
  | E : file_of <$> saveRegex _ = Some _ |- _ =>
      destruct (saveRegex _); cbn in E; simplify_eq
  end.
  apply after_last_no_sep.
Qed.

Lemma file_links_drop_the_directory_witness :
  Text.has "/"
    (fileName (file_of "notes/a.txt")) = false.
Proof.
  apply (file_links_drop_the_directory "act"
           (Val (JStr "Content successfully saved to notes/a.txt")) "10:00"
           "act" (getEventIcon "act") (getEventLabel "act") "10:00"
           (Val (JStr "Content successfully saved to notes/a.txt"))
           (file_of "notes/a.txt")).
  vm_compute. reflexivity.
Defined.

(** ** Escape handlers *)



























(** ** The end of a task as a poll reports it *)



